(** * Anchor SDK: the default policy pack and the request layer

    A shallow embedding of [typescript-sdk/src/policies.ts] over a small model
    of the JavaScript object store, followed by a model of the request layer
    (workspace scoping and retry with backoff) as the specification words it.

    The policy builder reads a caller-supplied configuration object and writes
    a freshly allocated [policies] object.  Objects and arrays are references
    into a store, so that sharing (the caller's arrays and the module's
    default array end up inside the result) and the absence of writes to
    existing objects can be stated. *)

From Stdlib Require Import Floats QArith.
From stdpp Require Import gmap strings list fin_maps.

Local Open Scope string_scope.

(* ===================================================================== *)
(** ** JavaScript values and the object store *)
(* ===================================================================== *)

Module Js.

(** Object identity. *)
Definition loc := positive.

(** A JavaScript value: the primitives, or a reference to an object.
    [number] is IEEE 754 binary64, as in the language. *)
Inductive Val :=
| VUndefined
| VNull
| VBool (b : bool)
| VNumber (x : float)
| VString (s : string)
| VRef (l : loc).

(** A heap object: named own properties, and the element list when the
    object is an array ([Array.isArray] holds exactly then). *)
Record HeapObj := mkObj {
  elems : option (list Val);
  props : gmap string Val
}.

Definition plainObject (ps : gmap string Val) : HeapObj := mkObj None ps.
Definition arrayObject (xs : list Val) : HeapObj := mkObj (Some xs) ∅.

Abbreviation Store := (gmap loc HeapObj).

Inductive Exn :=
| TypeError      (* property access on undefined or null *)
| DanglingRef.   (* a reference to no object: not reachable from JavaScript *)

(** The result of running a piece of code: a value or a thrown exception,
    with the store it leaves. *)
Inductive Result (A : Type) :=
| Ok (a : A) (σ : Store)
| Throw (e : Exn) (σ : Store).
Arguments Ok {A} a σ.
Arguments Throw {A} e σ.

Definition M (A : Type) : Type := Store → Result A.

Definition ret {A} (a : A) : M A := λ σ, Ok a σ.

Definition bind {A B} (m : M A) (k : A → M B) : M B :=
  λ σ, match m σ with
       | Ok a σ' => k a σ'
       | Throw e σ' => Throw e σ'
       end.

(** Reading [o.k] for an own, identifier-named data property: a missing
    property reads as [undefined]. *)
Definition field (o : HeapObj) (k : string) : Val :=
  default VUndefined (props o !! k).

(** [new Object] / an object or array literal: a fresh reference. *)
Definition alloc (o : HeapObj) : M loc :=
  λ σ, let l := fresh (dom σ) in Ok l (<[l := o]> σ).

(** [v.k].  Property access on [undefined] or [null] throws a TypeError;
    on another primitive the names read in this development (none of them
    a built-in of the wrapper prototypes) give [undefined]. *)
Definition getProp (v : Val) (k : string) : M Val :=
  λ σ, match v with
       | VUndefined | VNull => Throw TypeError σ
       | VBool _ | VNumber _ | VString _ => Ok VUndefined σ
       | VRef l =>
           match σ !! l with
           | Some o => Ok (field o k) σ
           | None => Throw DanglingRef σ
           end
       end.

(** [l.k = v] on an object reference. *)
Definition setProp (l : loc) (k : string) (v : Val) : M unit :=
  λ σ, match σ !! l with
       | Some o => Ok tt (<[l := mkObj (elems o) (<[k := v]> (props o))]> σ)
       | None => Throw DanglingRef σ
       end.

(** [Array.isArray(v)]. *)
Definition isArray (v : Val) : M bool :=
  λ σ, match v with
       | VRef l =>
           match σ !! l with
           | Some o => Ok (bool_decide (is_Some (elems o))) σ
           | None => Throw DanglingRef σ
           end
       | _ => Ok false σ
       end.


(** [v === undefined] and [v === null]. *)
Definition isUndefined (v : Val) : bool :=
  match v with VUndefined => true | _ => false end.

Definition isNull (v : Val) : bool :=
  match v with VNull => true | _ => false end.

(** The test of [a ?? b]: the right operand is evaluated and taken exactly
    when [a] is null or undefined. *)
Definition isNullish (v : Val) : bool :=
  isUndefined v || isNull v.

End Js.

Export Js.

#[global] Instance M_ret : MRet M := @ret.
#[global] Instance M_bind : MBind M := λ A B k m, bind m k.

(* ===================================================================== *)
(** ** policies.ts *)
(* ===================================================================== *)

Module Policies.

(** The literal of [DEFAULT_POLICY_CONFIG.requireApprovalFor]. *)
Definition approvalDefault : list Val :=
  [VString "delete"; VString "update"; VString "export"].

(** The object literal of [DEFAULT_POLICY_CONFIG]; [a] is the reference of
    its [requireApprovalFor] array. *)
Definition defaultsObject (a : loc) : HeapObj :=
  plainObject
    (<["maxQuerySize" := VNumber 1000]>
    (<["requireApprovalFor" := VRef a]>
    (<["blockPii" := VBool true]>
    (<["blockSecrets" := VBool true]> ∅)))).

(** Evaluating the module: [const DEFAULT_POLICY_CONFIG = {...} as const].
    The result is the reference the constant is bound to. *)
Definition loadModule : M loc :=
  a ← alloc (arrayObject approvalDefault);
  alloc (defaultsObject a).

Section WithModule.

(** The binding of the module-level constant. *)
Variable DEFAULT_POLICY_CONFIG : loc.

(** [constructor(config: DefaultPolicyPackConfig = {}) { this.config = config; }]
    The default parameter applies when the argument is [undefined]. *)
Definition newDefaultPolicyPack (arg : Val) : M loc :=
  config ← (if isUndefined arg
            then l ← alloc (plainObject ∅); mret (VRef l)
            else mret arg);
  this ← alloc (plainObject ∅);
  setProp this "config" config;;
  mret this.

(** [getConfig(): { policies: Record<string, any> }] *)
Definition getConfig (this : loc) : M loc :=
  policies ← alloc (plainObject ∅);
  config ← getProp (VRef this) "config";
  (* if (Array.isArray(config.allowedDomains)) *)
  allowedDomains ← getProp config "allowedDomains";
  isArr ← isArray allowedDomains;
  (if (isArr : bool)
   then v ← getProp config "allowedDomains";
        setProp policies "allowed_domains" v
   else mret tt : M unit);;
  (* const maxQuerySize = config.maxQuerySize === undefined ? ... : ... *)
  mqs ← getProp config "maxQuerySize";
  maxQuerySize ← (if isUndefined mqs
                  then getProp (VRef DEFAULT_POLICY_CONFIG) "maxQuerySize"
                  else getProp config "maxQuerySize");
  (if isNull maxQuerySize
   then mret tt
   else setProp policies "max_query_size" maxQuerySize : M unit);;
  (* const requireApprovalFor = config.requireApprovalFor === undefined ? ... : ... *)
  raf ← getProp config "requireApprovalFor";
  requireApprovalFor ← (if isUndefined raf
                        then getProp (VRef DEFAULT_POLICY_CONFIG) "requireApprovalFor"
                        else getProp config "requireApprovalFor");
  (if isNull requireApprovalFor
   then mret tt
   else setProp policies "require_approval_for" requireApprovalFor : M unit);;
  (* policies.block_pii = config.blockPii ?? DEFAULT_POLICY_CONFIG.blockPii *)
  blockPii ← getProp config "blockPii";
  blockPii ← (if isNullish blockPii
              then getProp (VRef DEFAULT_POLICY_CONFIG) "blockPii"
              else mret blockPii);
  setProp policies "block_pii" blockPii;;
  (* policies.block_secrets = config.blockSecrets ?? DEFAULT_POLICY_CONFIG.blockSecrets *)
  blockSecrets ← getProp config "blockSecrets";
  blockSecrets ← (if isNullish blockSecrets
                  then getProp (VRef DEFAULT_POLICY_CONFIG) "blockSecrets"
                  else mret blockSecrets);
  setProp policies "block_secrets" blockSecrets;;
  (* return { policies } *)
  alloc (plainObject (<["policies" := VRef policies]> ∅)).

(** The builder as the specification names it:
    [new DefaultPolicyPack(overrides).getConfig()]. *)
Definition buildDefaultPolicies (overrides : Val) : M loc :=
  this ← newDefaultPolicyPack overrides;
  getConfig this.

End WithModule.

End Policies.

Export Policies.

(* ===================================================================== *)
(** ** Observing a value: its structure as a tree *)
(* ===================================================================== *)

Module Observe.

(** What a value looks like from outside, references followed: the shape
    two results are compared by.  [TCut] stands where the walk stopped
    (depth exhausted, or a reference to no object). *)
Inductive Tree :=
| TUndefined
| TNull
| TBool (b : bool)
| TNumber (x : float)
| TString (s : string)
| TArray (xs : list Tree)
| TObject (ps : gmap string Tree)
| TCut.

(** The tree of [v] in [σ], following references at most [depth] deep.
    An array shows its elements, any other object its named properties. *)
Fixpoint snapshot (depth : nat) (σ : Store) (v : Val) : Tree :=
  match v with
  | VUndefined => TUndefined
  | VNull => TNull
  | VBool b => TBool b
  | VNumber x => TNumber x
  | VString s => TString s
  | VRef l =>
      match depth with
      | O => TCut
      | S d =>
          match σ !! l with
          | None => TCut
          | Some o =>
              match elems o with
              | Some xs => TArray (snapshot d σ <$> xs)
              | None => TObject (snapshot d σ <$> props o)
              end
          end
      end
  end.

(** The properties of the [policies] object inside a result of
    [getConfig]: [result.policies], read in [σ]. *)
Definition policiesOf (σ : Store) (result : loc) : option (gmap string Val) :=
  o ← σ !! result;
  match field o "policies" with
  | VRef p => props <$> σ !! p
  | _ => None
  end.

(** The elements of the array a value refers to, if it is one. *)
Definition listOf (σ : Store) (v : Val) : option (list Val) :=
  match v with
  | VRef l => o ← σ !! l; elems o
  | _ => None
  end.

End Observe.

Export Observe.

(* ===================================================================== *)
(** ** Well-formed stores *)
(* ===================================================================== *)

Module Wf.

(** A value is valid in a store when it is a primitive or a reference to
    an object of the store. *)
Definition valid (σ : Store) (v : Val) : Prop :=
  match v with
  | VRef l => is_Some (σ !! l)
  | _ => True
  end.

#[global] Instance valid_dec σ v : Decision (valid σ v).
Proof. destruct v; simpl; apply _. Defined.

Definition obj_closed (σ : Store) (o : HeapObj) : Prop :=
  map_Forall (λ _ v, valid σ v) (props o) ∧
  Forall (valid σ) (default [] (elems o)).

#[global] Instance obj_closed_dec σ o : Decision (obj_closed σ o).
Proof. unfold obj_closed. apply _. Defined.

(** Every reference stored in an object leads to an object: the stores a
    JavaScript program can build. *)
Definition closed (σ : Store) : Prop :=
  map_Forall (λ _ o, obj_closed σ o) σ.

#[global] Instance closed_dec σ : Decision (closed σ).
Proof. unfold closed. apply _. Defined.

(** The module has been evaluated: the store is closed and the constant
    [DEFAULT_POLICY_CONFIG] is bound to its object literal, whose
    [requireApprovalFor] is the array at [a]. *)
Definition module_loaded (D a : loc) (σ : Store) : Prop :=
  closed σ ∧ σ !! D = Some (defaultsObject a).

(** The shared default array still holds what the literal put there. *)
Definition defaults_intact (a : loc) (σ : Store) : Prop :=
  σ !! a = Some (arrayObject approvalDefault).

(** [Array.isArray] as a property of a value in a store. *)
Definition arrayValued (σ : Store) (v : Val) : bool :=
  match v with
  | VRef l =>
      match σ !! l with
      | Some o => bool_decide (is_Some (elems o))
      | None => false
      end
  | _ => false
  end.

End Wf.

Export Wf.


(* ===================================================================== *)
(** ** The request layer *)
(* ===================================================================== *)

(** The HTTP client of the SDK is not among the sources: its behaviour is
    modelled here from section 4.1 of the specification (operation [send]),
    with the transport and the sleep injected as the design notes ask. *)

Module RequestLayer.

(** Modelled from the spec: a JSON value, for request bodies and parsed
    responses (the client's JSON types are missing). *)
Inductive Json :=
| JNull
| JBool (b : bool)
| JNumber (x : float)
| JString (s : string)
| JArray (xs : list Json)
| JObject (fields : gmap string Json).

(** Modelled from the spec: the five supported verbs of [RequestSpec]. *)
Inductive Method := GET | POST | PUT | PATCH | DELETE.

(** Modelled from the spec: [ClientConfig] of the data model: API key, base
    URL, optional default workspace identifier and the retry parameters. *)
Record ClientConfig := {
  apiKey : string;
  baseUrl : string;
  defaultWorkspaceId : option string;
  maxAttempts : nat;
  baseDelay : Q;
  backoffMultiplier : Q
}.

(** Modelled from the spec: [RequestSpec] of the data model: method, path,
    optional body, optional query parameters, optional per-call workspace
    override. *)
Record RequestSpec := {
  method : Method;
  path : string;
  body : option (gmap string Json);
  query : list (string * string);
  workspaceOverride : option string
}.

(** Modelled from the spec: the request as it goes on the wire. *)
Record Outgoing := {
  out_method : Method;
  out_url : string;
  out_authorization : string;
  out_body : option (gmap string Json);
  out_query : list (string * string)
}.

(** Modelled from the spec: what the transport answers: no answer at all, or
    a status code with the parsed body, the retry-after hint when the server
    gave one, and whether the error envelope carries the policy-violation
    marker. *)
Inductive Reply :=
| TransportFailure
| Response (status : nat) (payload : Json) (retryAfter : option Q)
    (policyViolation : bool).

(** Modelled from the spec: the error taxonomy of section 7. *)
Inductive AnchorError :=
| AnchorErrorBase (status : option nat)
| AuthenticationError
| NotFoundError
| ValidationError (details : Json)
| PolicyViolationError
| RateLimitError (retryAfter : option Q).

(** Modelled from the spec: the effects of [send] a test observes: the
    warning about a missing workspace, each request handed to the
    transport, and each backoff sleep (the delay, and the server's
    retry-after hint the wait may not undercut). *)
Inductive Event :=
| Warning (message : string)
| Transmit (o : Outgoing)
| Sleep (delay : Q) (atLeast : option Q).

Definition workspaceKey : string := "workspaceId".

(** Modelled from the spec: the effective workspace id,
    [spec.workspaceOverride ?? clientConfig.defaultWorkspaceId]. *)
Definition resolveWorkspace (cfg : ClientConfig) (spec : RequestSpec) : option string :=
  match workspaceOverride spec with
  | Some w => Some w
  | None => defaultWorkspaceId cfg
  end.

(** Modelled from the spec: POST, PUT and PATCH carry the workspace in the
    body, GET and DELETE in the query string. *)
Definition bearsBody (m : Method) : bool :=
  match m with
  | POST | PUT | PATCH => true
  | GET | DELETE => false
  end.

(** Modelled from the spec: merging [workspaceId] into the body; a field of
    the caller's body wins on key collision. *)
Definition mergeWorkspace (w : string) (b : option (gmap string Json)) : gmap string Json :=
  default ∅ b ∪ {[ workspaceKey := JString w ]}.

(** Modelled from the spec: the outgoing request for a resolved workspace
    id: merged into the body for body-bearing verbs, appended as a query
    parameter for the others; without one the request goes out as given.
    The API key is attached to every request. *)
Definition outgoing (cfg : ClientConfig) (spec : RequestSpec) (ws : option string) : Outgoing :=
  {| out_method := method spec;
     out_url := baseUrl cfg +:+ path spec;
     out_authorization := "Bearer " +:+ apiKey cfg;
     out_body :=
       match ws with
       | Some w => if bearsBody (method spec)
                   then Some (mergeWorkspace w (body spec))
                   else body spec
       | None => body spec
       end;
     out_query :=
       match ws with
       | Some w => if bearsBody (method spec)
                   then query spec
                   else (query spec ++ [(workspaceKey, w)])%list
       | None => query spec
       end |}.

(** Modelled from the spec: the retryable set: request timeout, rate limit
    and the 5xx server errors. *)
Definition retryableStatus (status : nat) : bool :=
  (status =? 408)%nat || (status =? 429)%nat || ((500 <=? status)%nat && (status <=? 599)%nat).

Definition successStatus (status : nat) : bool :=
  (200 <=? status)%nat && (status <=? 299)%nat.

(** Modelled from the spec: mapping a failed reply to a typed error. *)
Definition toError (r : Reply) : AnchorError :=
  match r with
  | TransportFailure => AnchorErrorBase None
  | Response status payload retryAfter policyViolation =>
      if (status =? 401)%nat then AuthenticationError
      else if (status =? 404)%nat then NotFoundError
      else if (status =? 400)%nat || (status =? 422)%nat then ValidationError payload
      else if (status =? 403)%nat && policyViolation then PolicyViolationError
      else if (status =? 429)%nat then RateLimitError retryAfter
      else AnchorErrorBase (Some status)
  end.

Definition retryAfterOf (r : Reply) : option Q :=
  match r with
  | TransportFailure => None
  | Response _ _ retryAfter _ => retryAfter
  end.

(** Modelled from the spec: the backoff delay after failed attempt
    [attempt] (counted from 1):
    [baseDelay * backoffMultiplier^(attempt-1)], not jittered. *)
Definition backoffDelay (cfg : ClientConfig) (attempt : nat) : Q :=
  (baseDelay cfg * backoffMultiplier cfg ^ (Z.of_nat attempt - 1))%Q.

Section Send.

(** The injected transport: the reply to the request sent as attempt
    number [n]. *)
Variable transport : nat → Outgoing → Reply.
Variable cfg : ClientConfig.

(** Modelled from the spec: the retry loop of [send], an explicit loop over
    the attempt counter.  A success returns the parsed body; a failure
    outside the retryable set fails at once; a transport failure or a
    retryable status sleeps for the backoff delay and tries again while
    retries are left. *)
Fixpoint attempts (retriesLeft attempt : nat) (o : Outgoing)
  : list Event * (AnchorError + Json) :=
  let reply := transport attempt o in
  let giveUp := ([Transmit o], inl (toError reply)) in
  let again :=
    match retriesLeft with
    | O => giveUp
    | S k =>
        let rest := attempts k (S attempt) o in
        (Transmit o :: Sleep (backoffDelay cfg attempt) (retryAfterOf reply)
           :: rest.1, rest.2)
    end in
  match reply with
  | TransportFailure => again
  | Response status payload _ _ =>
      if successStatus status then ([Transmit o], inr payload)
      else if retryableStatus status then again
      else giveUp
  end.

(** Modelled from the spec: [send(spec)].  The workspace id is resolved
    once; when there is none a warning is emitted and the request goes out
    without it.  The first attempt is followed by up to [maxAttempts - 1]
    retries. *)
Definition send (spec : RequestSpec) : list Event * (AnchorError + Json) :=
  let ws := resolveWorkspace cfg spec in
  let warnings :=
    match ws with
    | Some _ => []
    | None => [Warning "workspaceId is not set"]
    end in
  let run := attempts (maxAttempts cfg - 1) 1 (outgoing cfg spec ws) in
  ((warnings ++ run.1)%list, run.2).

End Send.

(** The projections of a log a test looks at. *)
Definition transmitted (log : list Event) : list Outgoing :=
  omap (λ e, match e with Transmit o => Some o | _ => None end) log.

Definition warnings (log : list Event) : list string :=
  omap (λ e, match e with Warning m => Some m | _ => None end) log.

Definition delays (log : list Event) : list Q :=
  omap (λ e, match e with Sleep d _ => Some d | _ => None end) log.

(** The workspace field of a transmitted body. *)
Definition bodyWorkspace (o : Outgoing) : option Json :=
  b ← out_body o; b !! workspaceKey.

End RequestLayer.


Import RequestLayer.

(* ===================================================================== *)
(** ** Readings of a run, and the stores of the examples *)
(* ===================================================================== *)

(** The properties [getConfig] leaves in the [policies] object, as a
    function of the configuration object [o]: the assignments of the
    source in their order.  [a] is the module's default array. *)
Definition policiesFor (a : loc) (σ : Store) (o : HeapObj) : gmap string Val :=
  let ps0 : gmap string Val := ∅ in
  let ps1 :=
    if arrayValued σ (field o "allowedDomains")
    then <["allowed_domains" := field o "allowedDomains"]> ps0 else ps0 in
  let maxQuerySize :=
    if isUndefined (field o "maxQuerySize")
    then VNumber 1000 else field o "maxQuerySize" in
  let ps2 :=
    if isNull maxQuerySize then ps1
    else <["max_query_size" := maxQuerySize]> ps1 in
  let requireApprovalFor :=
    if isUndefined (field o "requireApprovalFor")
    then VRef a else field o "requireApprovalFor" in
  let ps3 :=
    if isNull requireApprovalFor then ps2
    else <["require_approval_for" := requireApprovalFor]> ps2 in
  let ps4 :=
    <["block_pii" := if isNullish (field o "blockPii")
                     then VBool true else field o "blockPii"]> ps3 in
  <["block_secrets" := if isNullish (field o "blockSecrets")
                       then VBool true else field o "blockSecrets"]> ps4.

(** The store [getConfig] leaves: the old one with two new objects. *)
Definition afterGetConfig (a : loc) (σ : Store) (o : HeapObj) : loc * Store :=
  let p := fresh (dom σ) in
  let σ1 := <[p := plainObject (policiesFor a σ o)]> σ in
  let r := fresh (dom σ1) in
  (r, <[r := plainObject (<["policies" := VRef p]> ∅)]> σ1).

(** The configuration object an argument of the constructor stands for:
    the default parameter [{}] when none is given. *)
Definition configOf (σ : Store) (overrides : Val) : option HeapObj :=
  match overrides with
  | VUndefined => Some (plainObject ∅)
  | VRef c => σ !! c
  | _ => None
  end.

(** [getConfig], started in [σ] on the configuration object [o], returned
    the reference [r] and left the store [σ']. *)
Record Built (D a : loc) (σ : Store) (o : HeapObj) (r : loc) (σ' : Store) : Prop := {
  built_result :
    ∃ p, σ' !! r = Some (plainObject (<["policies" := VRef p]> ∅))
         ∧ σ' !! p = Some (plainObject (policiesFor a σ o))
         ∧ σ !! p = None;
  built_frame : σ ⊆ σ';
  built_fresh : σ !! r = None;
  built_loaded : module_loaded D a σ'
}.

(** The tree of what [new DefaultPolicyPack(overrides).getConfig()]
    returns, when it returns. *)
Definition resultTree (D : loc) (overrides : Val) (σ : Store) (depth : nat)
  : option Tree :=
  match buildDefaultPolicies D overrides σ with
  | Ok r σ' => Some (snapshot depth σ' (VRef r))
  | Throw _ _ => None
  end.

(** The five names the builder may write. *)
Definition policyKeys : gset string :=
  {[ "allowed_domains"; "max_query_size"; "require_approval_for";
     "block_pii"; "block_secrets" ]}.







(** The store right after the module is evaluated in an empty store: the
    default array at 1, [DEFAULT_POLICY_CONFIG] at 2. *)
Definition a0 : loc := 1%positive.
Definition D0 : loc := 2%positive.

Definition store0 : Store :=
  <[D0 := defaultsObject a0]> (<[a0 := arrayObject approvalDefault]> ∅).

(** The default policies, as a tree. *)
Definition defaultPolicies : gmap string Tree :=
  <["max_query_size" := TNumber 1000]>
  (<["require_approval_for" :=
       TArray [TString "delete"; TString "update"; TString "export"]]>
  (<["block_pii" := TBool true]>
  (<["block_secrets" := TBool true]> ∅))).

(** A caller's store for the examples: the override object of the
    customization example in the documentation of [DefaultPolicyPack]
    ([blockSecrets: false], [maxQuerySize: null]), extended with a list of
    allowed domains and a null [blockPii]. *)
Definition c0 : loc := 3%positive.
Definition l0 : loc := 4%positive.

Definition exampleOverrides : HeapObj :=
  plainObject
    (<["allowedDomains" := VRef l0]>
    (<["maxQuerySize" := VNull]>
    (<["blockPii" := VNull]>
    (<["blockSecrets" := VBool false]> ∅)))).

Definition store1 : Store :=
  <[c0 := exampleOverrides]>
  (<[l0 := arrayObject [VString "example.com"]]> store0).

(** The override object [{blockSecrets: false}]. *)
Definition secretsAllowed : HeapObj :=
  plainObject (<["blockSecrets" := VBool false]> ∅).

(** A pack built from the example overrides: [new DefaultPolicyPack(c0)]. *)
Definition t0 : loc := 5%positive.

Definition store3 : Store :=
  <[t0 := plainObject (<["config" := VRef c0]> ∅)]> store1.

(** Override objects as an untyped caller can pass them: flags that are not
    booleans, and options spelled in snake_case next to an unknown one. *)
Definition c1 : loc := 6%positive.

Definition untypedOverrides : HeapObj :=
  plainObject
    (<["blockPii" := VNumber 0]>
    (<["blockSecrets" := VString ""]> ∅)).

Definition snakeCaseOverrides : HeapObj :=
  plainObject
    (<["block_secrets" := VBool false]>
    (<["max_query_size" := VNull]>
    (<["customPatterns" := VRef l0]> ∅))).

Definition store4 : Store :=
  <[c0 := untypedOverrides]>
  (<[c1 := snakeCaseOverrides]>
  (<[l0 := arrayObject [VString "example.com"]]> store0)).

(** A store in which a caller has appended to the list of an earlier
    default result. *)
Definition store5 : Store :=
  <[a0 := arrayObject (approvalDefault ++ [VString "publish"])]> store0.

(** A client with a default workspace, and a transport that answers 200
    to everything. *)
Definition exampleClient : ClientConfig :=
  {| apiKey := "anc_abc123";
     baseUrl := "https://api.example.test";
     defaultWorkspaceId := Some "workspace-123";
     maxAttempts := 4;
     baseDelay := 100;
     backoffMultiplier := 2 |}.

Definition alwaysOk : nat → Outgoing → Reply :=
  λ _ _, Response 200 JNull None false.

Definition alwaysDown : nat → Outgoing → Reply :=
  λ _ _, TransportFailure.

(** A POST whose body already names a workspace, sent with a different
    per-call override. *)
Definition collidingRequest : RequestSpec :=
  {| method := POST;
     path := "/agents";
     body := Some (<[workspaceKey := JString "workspace-body"]>
                   (<["name" := JString "support-bot"]> ∅));
     query := [];
     workspaceOverride := Some "workspace-call" |}.

(* ===================================================================== *)
(** ** Running the builder *)
(* ===================================================================== *)

Section Run.

Implicit Types (σ : Store) (o : HeapObj) (v : Val) (k : string) (l p : loc).

Lemma run_bind {A B} (m : M A) (f : A → M B) σ a σ' :
  m σ = Ok a σ' → (m ≫= f) σ = f a σ'.
Proof. intros H. unfold mbind, M_bind, bind. by rewrite H. Qed.

Lemma run_ret {A} (x : A) σ : (mret x : M A) σ = Ok x σ.
Proof. reflexivity. Qed.

Lemma run_alloc o σ :
  alloc o σ = Ok (fresh (dom σ)) (<[fresh (dom σ) := o]> σ).
Proof. reflexivity. Qed.

Lemma fresh_lookup σ : σ !! fresh (dom σ) = None.
Proof. apply not_elem_of_dom, is_fresh. Qed.

Lemma fresh_ne σ l o : σ !! l = Some o → l ≠ fresh (dom σ).
Proof. intros H ->. rewrite fresh_lookup in H. discriminate. Qed.

(** Reading an object that was there before the last allocation. *)
Lemma run_getProp_old σ p x l o k :
  σ !! l = Some o → σ !! p = None →
  getProp (VRef l) k (<[p := x]> σ) = Ok (field o k) (<[p := x]> σ).
Proof.
  intros Hl Hp. unfold getProp.
  rewrite lookup_insert_ne by congruence. by rewrite Hl.
Qed.

(** Writing a property of the object allocated last. *)
Lemma run_setProp_new σ p ps k v :
  setProp p k v (<[p := plainObject ps]> σ)
  = Ok tt (<[p := plainObject (<[k := v]> ps)]> σ).
Proof.
  unfold setProp. rewrite lookup_insert_eq. simpl.
  by rewrite insert_insert_eq.
Qed.

Lemma run_isArray_old σ p x v :
  valid σ v → σ !! p = None →
  isArray v (<[p := x]> σ) = Ok (arrayValued σ v) (<[p := x]> σ).
Proof.
  intros Hv Hp. destruct v; try reflexivity. simpl in *.
  destruct Hv as [o Ho].
  rewrite lookup_insert_ne by congruence. by rewrite Ho.
Qed.

Lemma run_if {A} (b : bool) (m1 m2 : M A) σ a1 a2 σ1 σ2 :
  m1 σ = Ok a1 σ1 → m2 σ = Ok a2 σ2 →
  (if b then m1 else m2) σ = Ok (if b then a1 else a2) (if b then σ1 else σ2).
Proof. by destruct b. Qed.

Lemma if_insert (b : bool) σ p (ps1 ps2 : gmap string Val) :
  (if b then <[p := plainObject ps1]> σ else <[p := plainObject ps2]> σ)
  = <[p := plainObject (if b then ps1 else ps2)]> σ.
Proof. by destruct b. Qed.

Lemma if_same {A} (b : bool) (x : A) : (if b then x else x) = x.
Proof. by destruct b. Qed.

Lemma defaults_maxQuerySize a :
  field (defaultsObject a) "maxQuerySize" = VNumber 1000.
Proof. reflexivity. Qed.

Lemma defaults_requireApprovalFor a :
  field (defaultsObject a) "requireApprovalFor" = VRef a.
Proof. reflexivity. Qed.

Lemma defaults_blockPii a :
  field (defaultsObject a) "blockPii" = VBool true.
Proof. reflexivity. Qed.

Lemma defaults_blockSecrets a :
  field (defaultsObject a) "blockSecrets" = VBool true.
Proof. reflexivity. Qed.

Lemma getConfig_run D a σ this othis c o :
  σ !! D = Some (defaultsObject a) →
  σ !! this = Some othis →
  field othis "config" = VRef c →
  σ !! c = Some o →
  valid σ (field o "allowedDomains") →
  getConfig D this σ
  = Ok (afterGetConfig a σ o).1 (afterGetConfig a σ o).2.
Proof.
  intros HD Hthis Hcfg Hc Hval.
  pose proof (fresh_lookup σ) as Hp.
  unfold getConfig, afterGetConfig, policiesFor. cbv zeta.
  set (p := fresh (dom σ)) in *.
  erewrite run_bind by apply run_alloc. fold p.
  erewrite run_bind by (by apply run_getProp_old). rewrite Hcfg.
  erewrite run_bind by (by apply run_getProp_old).
  erewrite run_bind by (by apply run_isArray_old).
  erewrite run_bind; cycle 1.
  { apply run_if.
    - erewrite run_bind by (by apply run_getProp_old).
      apply run_setProp_new.
    - apply run_ret. }
  rewrite if_insert.
  erewrite run_bind by (by apply run_getProp_old).
  erewrite run_bind by (apply run_if; by apply run_getProp_old).
  rewrite if_same.
  erewrite run_bind by (apply run_if; [apply run_ret | apply run_setProp_new]).
  rewrite if_insert.
  erewrite run_bind by (by apply run_getProp_old).
  erewrite run_bind by (apply run_if; by apply run_getProp_old).
  rewrite if_same.
  erewrite run_bind by (apply run_if; [apply run_ret | apply run_setProp_new]).
  rewrite if_insert.
  erewrite run_bind by (by apply run_getProp_old).
  erewrite run_bind by (apply run_if; [by apply run_getProp_old | apply run_ret]).
  rewrite if_same.
  erewrite run_bind by apply run_setProp_new.
  erewrite run_bind by (by apply run_getProp_old).
  erewrite run_bind by (apply run_if; [by apply run_getProp_old | apply run_ret]).
  rewrite if_same.
  erewrite run_bind by apply run_setProp_new.
  rewrite run_alloc.
  rewrite !defaults_maxQuerySize, !defaults_requireApprovalFor,
    defaults_blockPii, defaults_blockSecrets.
  reflexivity.
Qed.

(** *** Stores only grow *)

Lemma valid_mono σ σ' v : σ ⊆ σ' → valid σ v → valid σ' v.
Proof.
  intros Hsub. destruct v; simpl; try done.
  intros [o Ho]. exists o. by eapply lookup_weaken.
Qed.

Lemma arrayValued_mono σ σ' v :
  σ ⊆ σ' → valid σ v → arrayValued σ' v = arrayValued σ v.
Proof.
  intros Hsub. destruct v; simpl; try done.
  intros [o Ho]. by rewrite (lookup_weaken _ _ _ _ Ho Hsub), Ho.
Qed.

Lemma policiesFor_mono a σ σ' o :
  σ ⊆ σ' → valid σ (field o "allowedDomains") →
  policiesFor a σ' o = policiesFor a σ o.
Proof.
  intros Hsub Hv. unfold policiesFor.
  by rewrite (arrayValued_mono σ σ').
Qed.

Lemma obj_closed_mono σ σ' o : σ ⊆ σ' → obj_closed σ o → obj_closed σ' o.
Proof.
  intros Hsub [Hp He]. split.
  - intros k v Hk. eapply valid_mono; [done|]. by apply (Hp k).
  - eapply Forall_impl; [done|]. intros v. by apply valid_mono.
Qed.

Lemma closed_field σ l o k : closed σ → σ !! l = Some o → valid σ (field o k).
Proof.
  intros Hcl Hl. destruct (Hcl l o Hl) as [Hp _].
  unfold field. destruct (props o !! k) as [v|] eqn:Hk; simpl; [|done].
  by apply (Hp k).
Qed.

(** Allocation of an object whose references are all live keeps the store
    closed. *)
Lemma closed_alloc σ l o :
  closed σ → σ !! l = None → obj_closed (<[l := o]> σ) o →
  closed (<[l := o]> σ).
Proof.
  intros Hcl Hl Ho. apply map_Forall_insert; [done|]. split; [done|].
  intros l' o' Hl'. eapply obj_closed_mono; [|by apply (Hcl l')].
  by apply insert_subseteq.
Qed.

Lemma obj_closed_plain σ ps :
  map_Forall (λ _ v, valid σ v) ps → obj_closed σ (plainObject ps).
Proof. intros H. split; [done|]. simpl. constructor. Qed.

(** Every value the builder stores is a primitive, a value of the
    configuration object, or the default array. *)
Lemma policiesFor_valid a σ o :
  (∀ k, valid σ (field o k)) → valid σ (VRef a) →
  map_Forall (λ _ v, valid σ v) (policiesFor a σ o).
Proof.
  intros Ho Ha. unfold policiesFor. cbv zeta.
  repeat first
    [ apply map_Forall_empty
    | apply map_Forall_insert_2
    | match goal with |- context [if ?b then _ else _] => destruct b end
    | done ].
Qed.

(** *** What a run of the builder establishes *)

Lemma getConfig_built D a σ this othis c o :
  module_loaded D a σ →
  σ !! this = Some othis → field othis "config" = VRef c → σ !! c = Some o →
  ∃ r σ', getConfig D this σ = Ok r σ' ∧ Built D a σ o r σ'.
Proof.
  intros [Hcl HD] Hthis Hcfg Hc.
  assert (Hval : ∀ k, valid σ (field o k)) by (intros k; by eapply closed_field).
  assert (Ha : valid σ (VRef a)).
  { rewrite <- (defaults_requireApprovalFor a). by eapply closed_field. }
  rewrite (getConfig_run D a σ this othis c o) by done.
  unfold afterGetConfig. cbv zeta. simpl.
  set (p := fresh (dom σ)).
  set (σ1 := <[p := plainObject (policiesFor a σ o)]> σ).
  set (r := fresh (dom σ1)).
  assert (Hp : σ !! p = None) by apply fresh_lookup.
  assert (Hr : σ1 !! r = None) by apply fresh_lookup.
  assert (Hrp : r ≠ p).
  { intros Heq. rewrite Heq in Hr. unfold σ1 in Hr.
    by rewrite lookup_insert_eq in Hr. }
  assert (Hsub1 : σ ⊆ σ1) by (by apply insert_subseteq).
  assert (Hcl1 : closed σ1).
  { apply closed_alloc; [done..|]. apply obj_closed_plain.
    eapply map_Forall_impl; [by apply policiesFor_valid|].
    intros k v. by apply valid_mono. }
  eexists _, _. split; [reflexivity|]. split.
  - exists p. split; [by rewrite lookup_insert_eq|]. split; [|done].
    rewrite lookup_insert_ne by done.
    by apply lookup_insert_eq.
  - etrans; [exact Hsub1|]. by apply insert_subseteq.
  - eapply lookup_weaken_None; [exact Hr | exact Hsub1].
  - split.
    + apply closed_alloc; [done..|]. apply obj_closed_plain.
      apply map_Forall_insert_2; [|apply map_Forall_empty]. simpl.
      rewrite lookup_insert_ne by done.
      unfold σ1. by rewrite lookup_insert_eq.
    + eapply lookup_weaken; [exact HD|].
      etrans; [exact Hsub1|]. by apply insert_subseteq.
Qed.

Lemma Built_weaken D a σ σ1 o r σ' :
  σ ⊆ σ1 → valid σ (field o "allowedDomains") →
  Built D a σ1 o r σ' → Built D a σ o r σ'.
Proof.
  intros Hsub Hv [(p & Hr & Hp & Hfp) Hfr Hfresh Hload]. split.
  - exists p. rewrite <- (policiesFor_mono a σ σ1) by done.
    repeat split; try done. by eapply lookup_weaken_None.
  - by etrans.
  - by eapply lookup_weaken_None.
  - done.
Qed.

(** The constructor: a new object holding the configuration reference. *)
Lemma newDefaultPolicyPack_run D a σ overrides o :
  module_loaded D a σ → configOf σ overrides = Some o →
  ∃ this c σ1,
    newDefaultPolicyPack overrides σ = Ok this σ1
    ∧ σ ⊆ σ1 ∧ module_loaded D a σ1
    ∧ σ1 !! this = Some (plainObject (<["config" := VRef c]> ∅))
    ∧ σ1 !! c = Some o.
Proof.
  intros [Hcl HD] Hcfg. unfold newDefaultPolicyPack.
  destruct overrides; simpl in Hcfg; try discriminate.
  - (* no argument: the default parameter *)
    injection Hcfg as <-. simpl.
    erewrite run_bind; cycle 1.
    { erewrite run_bind by apply run_alloc. apply run_ret. }
    erewrite run_bind by apply run_alloc.
    erewrite run_bind by apply run_setProp_new. rewrite run_ret.
    set (c := fresh (dom σ)).
    set (σ0 := <[c := plainObject ∅]> σ).
    set (t := fresh (dom σ0)).
    assert (Hc : σ !! c = None) by apply fresh_lookup.
    assert (Ht : σ0 !! t = None) by apply fresh_lookup.
    assert (Hsub0 : σ ⊆ σ0) by (by apply insert_subseteq).
    assert (Hc0 : σ0 !! c = Some (plainObject ∅)) by apply lookup_insert_eq.
    assert (Hcl0 : closed σ0).
    { apply closed_alloc; [done..|]. apply obj_closed_plain, map_Forall_empty. }
    exists t, c, (<[t := plainObject (<["config" := VRef c]> ∅)]> σ0).
    split; [done|]. split; [|split; [split|split]].
    + etrans; [exact Hsub0|]. by apply insert_subseteq.
    + apply closed_alloc; [done..|]. apply obj_closed_plain.
      apply map_Forall_insert_2; [|apply map_Forall_empty]. simpl.
      eexists. eapply lookup_weaken; [exact Hc0|]. by apply insert_subseteq.
    + eapply lookup_weaken; [exact HD|].
      etrans; [exact Hsub0|]. by apply insert_subseteq.
    + apply lookup_insert_eq.
    + eapply lookup_weaken; [exact Hc0|]. by apply insert_subseteq.
  - (* an object is passed *)
    simpl. erewrite run_bind by apply run_ret.
    erewrite run_bind by apply run_alloc.
    erewrite run_bind by apply run_setProp_new. rewrite run_ret.
    set (t := fresh (dom σ)).
    assert (Ht : σ !! t = None) by apply fresh_lookup.
    assert (Hsub : σ ⊆ <[t := plainObject (<["config" := VRef l]> ∅)]> σ)
      by (by apply insert_subseteq).
    exists t, l, (<[t := plainObject (<["config" := VRef l]> ∅)]> σ).
    split; [done|]. split; [done|]. split; [split|split].
    + apply closed_alloc; [done..|]. apply obj_closed_plain.
      apply map_Forall_insert_2; [|apply map_Forall_empty]. simpl.
      eexists. by eapply lookup_weaken.
    + by eapply lookup_weaken.
    + apply lookup_insert_eq.
    + by eapply lookup_weaken.
Qed.

Lemma configOf_valid σ overrides o k :
  closed σ → configOf σ overrides = Some o → valid σ (field o k).
Proof.
  intros Hcl Hcfg. destruct overrides; simpl in Hcfg; try discriminate.
  - by injection Hcfg as <-.
  - by eapply closed_field.
Qed.

(** [new DefaultPolicyPack(overrides).getConfig()] returns, for every
    configuration object. *)
Lemma build_built D a σ overrides o :
  module_loaded D a σ → configOf σ overrides = Some o →
  ∃ r σ', buildDefaultPolicies D overrides σ = Ok r σ' ∧ Built D a σ o r σ'.
Proof.
  intros Hload Hcfg.
  destruct (newDefaultPolicyPack_run D a σ overrides o Hload Hcfg)
    as (this & c & σ1 & Hnew & Hsub & Hload1 & Hthis & Hc).
  destruct (getConfig_built D a σ1 this _ c o Hload1 Hthis eq_refl Hc)
    as (r & σ' & Hrun & HB).
  exists r, σ'. split.
  - unfold buildDefaultPolicies. by erewrite run_bind by exact Hnew.
  - eapply Built_weaken; [exact Hsub| |exact HB].
    eapply configOf_valid; [|exact Hcfg]. by destruct Hload.
Qed.

(** Evaluating the module establishes what the builder relies on, in any
    closed store; [Built] and [Built_defaults_intact] below show the
    builder keeps it. *)
Lemma loadModule_loaded σ :
  closed σ →
  ∃ D a σ', loadModule σ = Ok D σ'
            ∧ module_loaded D a σ' ∧ defaults_intact a σ' ∧ σ ⊆ σ'.
Proof.
  intros Hcl. unfold loadModule.
  erewrite run_bind by apply run_alloc. rewrite run_alloc.
  set (a := fresh (dom σ)).
  set (σ1 := <[a := arrayObject approvalDefault]> σ).
  set (D := fresh (dom σ1)).
  assert (Ha : σ !! a = None) by apply fresh_lookup.
  assert (HD : σ1 !! D = None) by apply fresh_lookup.
  assert (Ha1 : σ1 !! a = Some (arrayObject approvalDefault))
    by apply lookup_insert_eq.
  assert (Hsub1 : σ ⊆ σ1) by (by apply insert_subseteq).
  assert (Hsub2 : σ1 ⊆ <[D := defaultsObject a]> σ1) by (by apply insert_subseteq).
  assert (Hcl1 : closed σ1).
  { apply closed_alloc; [done..|]. split; [apply map_Forall_empty|].
    simpl. unfold approvalDefault. by repeat constructor. }
  exists D, a, (<[D := defaultsObject a]> σ1).
  split; [done|]. split; [split|split].
  - apply closed_alloc; [done..|]. apply obj_closed_plain.
    repeat (apply map_Forall_insert_2; [|]); try apply map_Forall_empty; try done.
    simpl. eexists. by eapply lookup_weaken.
  - apply lookup_insert_eq.
  - by eapply lookup_weaken.
  - by etrans.
Qed.

(** *** The properties of the result, key by key *)

Ltac policies_lookup :=
  unfold policiesFor; cbv zeta;
  repeat match goal with
         | |- context [isUndefined ?v] => destruct (isUndefined v) eqn:?
         end;
  cbn [isNull];
  repeat first
    [ rewrite lookup_insert_eq
    | rewrite lookup_insert_ne by done
    | rewrite lookup_empty
    | match goal with
      | |- context [(if ?b then _ else _) !! _] => destruct b eqn:?
      end ];
  repeat match goal with
         | H : ?b = _ |- context [if ?b then _ else _] => rewrite H
         end;
  try done.

Lemma policiesFor_allowed_domains a σ o :
  policiesFor a σ o !! "allowed_domains"
  = if arrayValued σ (field o "allowedDomains")
    then Some (field o "allowedDomains") else None.
Proof. policies_lookup. Qed.

Lemma policiesFor_max_query_size a σ o :
  policiesFor a σ o !! "max_query_size"
  = if isUndefined (field o "maxQuerySize") then Some (VNumber 1000)
    else if isNull (field o "maxQuerySize") then None
    else Some (field o "maxQuerySize").
Proof. policies_lookup. Qed.

Lemma policiesFor_require_approval_for a σ o :
  policiesFor a σ o !! "require_approval_for"
  = if isUndefined (field o "requireApprovalFor") then Some (VRef a)
    else if isNull (field o "requireApprovalFor") then None
    else Some (field o "requireApprovalFor").
Proof. policies_lookup. Qed.

Lemma policiesFor_block_pii a σ o :
  policiesFor a σ o !! "block_pii"
  = Some (if isNullish (field o "blockPii")
          then VBool true else field o "blockPii").
Proof. policies_lookup. Qed.

Lemma policiesFor_block_secrets a σ o :
  policiesFor a σ o !! "block_secrets"
  = Some (if isNullish (field o "blockSecrets")
          then VBool true else field o "blockSecrets").
Proof. policies_lookup. Qed.

Lemma dom_insert_within (m : gmap string Val) k v (S : gset string) :
  bool_decide (k ∈ S) = true → dom m ⊆ S → dom (<[k := v]> m) ⊆ S.
Proof.
  intros Hk Hm. apply bool_decide_eq_true in Hk.
  rewrite dom_insert_L. set_solver.
Qed.

Lemma policiesFor_dom a σ o : dom (policiesFor a σ o) ⊆ policyKeys.
Proof.
  unfold policiesFor. cbv zeta.
  repeat first
    [ apply dom_insert_within; [by vm_compute|]
    | match goal with
      | |- dom (if ?b then _ else _) ⊆ _ => destruct b
      end
    | by rewrite dom_empty_L ].
Qed.

End Run.

(* ===================================================================== *)
(** ** The policy pack builder: what every result looks like *)
(* ===================================================================== *)

Example loadModule_store0 : loadModule ∅ = Ok D0 store0.
Proof. reflexivity. Qed.

Definition store2 : Store := <[c0 := secretsAllowed]> store0.

Ltac by_evaluation :=
  lazymatch goal with
  | |- module_loaded _ _ ?σ =>
      split; [apply (bool_decide_unpack (closed σ)); by vm_compute | reflexivity]
  | |- _ => reflexivity
  end.

Section Results.

Implicit Types (σ : Store) (o : HeapObj) (v : Val) (k : string) (l p r : loc).

Lemma field_insert_eq (ps : gmap string Val) k v :
  field (plainObject (<[k := v]> ps)) k = v.
Proof. unfold field. simpl. by rewrite lookup_insert_eq. Qed.

Lemma Built_policiesOf D a σ o r σ' :
  Built D a σ o r σ' → policiesOf σ' r = Some (policiesFor a σ o).
Proof.
  intros [(p & Hr & Hp & _) _ _ _]. unfold policiesOf.
  rewrite Hr. simpl. rewrite field_insert_eq. by rewrite Hp.
Qed.

Lemma Built_snapshot D a σ o r σ' n :
  Built D a σ o r σ' →
  snapshot (S (S n)) σ' (VRef r)
  = TObject (<["policies" := TObject (snapshot n σ' <$> policiesFor a σ o)]> ∅).
Proof.
  intros [(p & Hr & Hp & _) _ _ _].
  cbn [snapshot]. rewrite Hr. cbn [elems plainObject props].
  rewrite fmap_insert, fmap_empty. cbn [snapshot]. by rewrite Hp.
Qed.

(** A primitive is its own tree at every depth. *)
Lemma snapshot_undefined n σ : snapshot n σ VUndefined = TUndefined.
Proof. by destruct n. Qed.

Lemma snapshot_null n σ : snapshot n σ VNull = TNull.
Proof. by destruct n. Qed.

Lemma snapshot_bool n σ b : snapshot n σ (VBool b) = TBool b.
Proof. by destruct n. Qed.

Lemma snapshot_number n σ x : snapshot n σ (VNumber x) = TNumber x.
Proof. by destruct n. Qed.

Lemma snapshot_string n σ s : snapshot n σ (VString s) = TString s.
Proof. by destruct n. Qed.

Lemma snapshot_approvalDefault σ a n :
  defaults_intact a σ →
  snapshot (S n) σ (VRef a)
  = TArray [TString "delete"; TString "update"; TString "export"].
Proof.
  unfold defaults_intact. intros Ha. cbn [snapshot]. rewrite Ha. simpl.
  by rewrite !snapshot_string.
Qed.

Lemma Built_defaults_intact D a σ o r σ' :
  Built D a σ o r σ' → defaults_intact a σ → defaults_intact a σ'.
Proof. intros [_ Hsub _ _] Ha. by eapply lookup_weaken. Qed.

(** The runs the documentation of the class shows, evaluated. *)
Example run_no_argument :
  resultTree D0 VUndefined store0 3
  = Some (TObject (<["policies" := TObject defaultPolicies]> ∅)).
Proof. by vm_compute. Qed.

Example run_customized :
  resultTree D0 (VRef c0) store1 3
  = Some (TObject (<["policies" := TObject
        (<["allowed_domains" := TArray [TString "example.com"]]>
        (<["require_approval_for" :=
             TArray [TString "delete"; TString "update"; TString "export"]]>
        (<["block_pii" := TBool true]>
        (<["block_secrets" := TBool false]> ∅))))]> ∅)).
Proof. by vm_compute. Qed.

(** A [null] configuration is a TypeError at the first property read. *)
Example run_null_config :
  ∃ σ', buildDefaultPolicies D0 VNull store0 = Throw TypeError σ'.
Proof. eexists. by vm_compute. Qed.

Lemma listOf_mono σ σ' v xs :
  σ ⊆ σ' → listOf σ v = Some xs → listOf σ' v = Some xs.
Proof.
  intros Hsub. destruct v; simpl; try done.
  destruct (σ !! l) as [o'|] eqn:Hl; simpl; [|done].
  by rewrite (lookup_weaken _ _ _ _ Hl Hsub).
Qed.




(** Each key of the result is decided by one field of the configuration
    object. *)
Lemma policiesFor_agree a σ o1 o2 k :
  (k = "allowed_domains" → field o1 "allowedDomains" = field o2 "allowedDomains") →
  (k = "max_query_size" → field o1 "maxQuerySize" = field o2 "maxQuerySize") →
  (k = "require_approval_for" →
     field o1 "requireApprovalFor" = field o2 "requireApprovalFor") →
  (k = "block_pii" → field o1 "blockPii" = field o2 "blockPii") →
  (k = "block_secrets" → field o1 "blockSecrets" = field o2 "blockSecrets") →
  policiesFor a σ o1 !! k = policiesFor a σ o2 !! k.
Proof.
  intros H1 H2 H3 H4 H5.
  destruct (decide (k ∈ policyKeys)) as [Hin|Hout].
  - unfold policyKeys in Hin. set_unfold in Hin.
    destruct Hin as [ [ [ [ -> | -> ] | -> ] | -> ] | -> ].
    + by rewrite !policiesFor_allowed_domains, H1.
    + by rewrite !policiesFor_max_query_size, H2.
    + by rewrite !policiesFor_require_approval_for, H3.
    + by rewrite !policiesFor_block_pii, H4.
    + by rewrite !policiesFor_block_secrets, H5.
  - transitivity (@None Val); [|symmetry]; apply not_elem_of_dom;
      intros Hk; apply Hout; by eapply policiesFor_dom.
Qed.

(** C2.  [maxQuerySize] is tri-state: an explicit [null] leaves
    [max_query_size] out, an unset field gives 1000, any other value is
    emitted as given; and the choice affects no other key of the result. *)
Theorem maxQuerySize_tristate D a σ overrides o :
  module_loaded D a σ → configOf σ overrides = Some o →
  ∃ r σ' ps,
    buildDefaultPolicies D overrides σ = Ok r σ'
    ∧ policiesOf σ' r = Some ps
    ∧ (field o "maxQuerySize" = VNull → ps !! "max_query_size" = None)
    ∧ (field o "maxQuerySize" = VUndefined →
         ps !! "max_query_size" = Some (VNumber 1000))
    ∧ (field o "maxQuerySize" ≠ VNull → field o "maxQuerySize" ≠ VUndefined →
         ps !! "max_query_size" = Some (field o "maxQuerySize"))
    ∧ (∀ overrides2 o2,
         configOf σ overrides2 = Some o2 →
         (∀ k, k ≠ "maxQuerySize" → field o2 k = field o k) →
         ∃ r2 σ2 ps2,
           buildDefaultPolicies D overrides2 σ = Ok r2 σ2
           ∧ policiesOf σ2 r2 = Some ps2
           ∧ ∀ k, k ≠ "max_query_size" → ps2 !! k = ps !! k).
Proof.
  intros Hload Hcfg.
  destruct (build_built D a σ overrides o Hload Hcfg) as (r & σ' & Hrun & HB).
  exists r, σ', (policiesFor a σ o).
  split; [done|]. split; [by eapply Built_policiesOf|].
  rewrite policiesFor_max_query_size. repeat split.
  - by intros ->.
  - by intros ->.
  - intros Hn Hu. by destruct (field o "maxQuerySize").
  - intros overrides2 o2 Hcfg2 Hsame.
    destruct (build_built D a σ overrides2 o2 Hload Hcfg2)
      as (r2 & σ2 & Hrun2 & HB2).
    exists r2, σ2, (policiesFor a σ o2).
    split; [done|]. split; [by eapply Built_policiesOf|].
    intros k Hk. apply policiesFor_agree; intros; subst; by (apply Hsame || done).
Qed.

Lemma maxQuerySize_tristate_witness :
  module_loaded D0 a0 store1 ∧ configOf store1 (VRef c0) = Some exampleOverrides
  ∧ ∃ r σ' ps,
      buildDefaultPolicies D0 (VRef c0) store1 = Ok r σ'
      ∧ policiesOf σ' r = Some ps
      ∧ ps !! "max_query_size" = None.
Proof.
  assert (H1 : module_loaded D0 a0 store1) by by_evaluation.
  assert (H2 : configOf store1 (VRef c0) = Some exampleOverrides) by by_evaluation.
  refine (conj H1 (conj H2 _)).
  destruct (maxQuerySize_tristate D0 a0 store1 (VRef c0) exampleOverrides H1 H2)
    as (r & σ' & ps & Hrun & Hps & Hnull & _).
  exists r, σ', ps. refine (conj Hrun (conj Hps (Hnull _))). reflexivity.
Defined.

Lemma arrayValued_listOf σ v :
  arrayValued σ v = true ↔ is_Some (listOf σ v).
Proof.
  destruct v; simpl; try (split; [done|by intros [? ?]]).
  destruct (σ !! l) as [o'|]; simpl.
  - by rewrite bool_decide_eq_true.
  - split; [done|by intros [? ?]].
Qed.




(** C4.  The result has an [allowed_domains] key exactly when
    [allowedDomains] is a list; the key then holds the caller's list
    itself (the empty list included), with its elements unchanged; with
    [null] or nothing given the key is left out. *)
Theorem allowedDomains_passthrough D a σ overrides o :
  module_loaded D a σ → configOf σ overrides = Some o →
  ∃ r σ' ps,
    buildDefaultPolicies D overrides σ = Ok r σ'
    ∧ policiesOf σ' r = Some ps
    ∧ (is_Some (ps !! "allowed_domains")
       ↔ is_Some (listOf σ (field o "allowedDomains")))
    ∧ (∀ xs, listOf σ (field o "allowedDomains") = Some xs →
         ps !! "allowed_domains" = Some (field o "allowedDomains")
         ∧ listOf σ' (field o "allowedDomains") = Some xs)
    ∧ (field o "allowedDomains" = VNull ∨ field o "allowedDomains" = VUndefined →
         ps !! "allowed_domains" = None).
Proof.
  intros Hload Hcfg.
  destruct (build_built D a σ overrides o Hload Hcfg) as (r & σ' & Hrun & HB).
  exists r, σ', (policiesFor a σ o).
  split; [done|]. split; [by eapply Built_policiesOf|].
  rewrite policiesFor_allowed_domains.
  pose proof (arrayValued_listOf σ (field o "allowedDomains")) as Harr.
  split; [|split].
  - rewrite <- Harr.
    destruct (arrayValued σ (field o "allowedDomains")); split;
      first [done | by intros [? ?]].
  - intros xs Hxs. split.
    + assert (Ht : arrayValued σ (field o "allowedDomains") = true)
        by (apply Harr; by exists xs).
      by rewrite Ht.
    + eapply listOf_mono; [|done]. by destruct HB.
  - by intros [-> | ->].
Qed.

Lemma allowedDomains_passthrough_witness :
  module_loaded D0 a0 store1 ∧ configOf store1 (VRef c0) = Some exampleOverrides
  ∧ ∃ r σ' ps,
      buildDefaultPolicies D0 (VRef c0) store1 = Ok r σ'
      ∧ policiesOf σ' r = Some ps
      ∧ ps !! "allowed_domains" = Some (VRef l0)
      ∧ listOf σ' (VRef l0) = Some [VString "example.com"].
Proof.
  assert (H1 : module_loaded D0 a0 store1) by by_evaluation.
  assert (H2 : configOf store1 (VRef c0) = Some exampleOverrides) by by_evaluation.
  refine (conj H1 (conj H2 _)).
  destruct (allowedDomains_passthrough D0 a0 store1 (VRef c0) exampleOverrides H1 H2)
    as (r & σ' & ps & Hrun & Hps & _ & Hlist & _).
  exists r, σ', ps.
  exact (conj Hrun (conj Hps (Hlist [VString "example.com"] eq_refl))).
Defined.




(** C6.  The keys of the result are among the five snake_case names
    [allowed_domains], [max_query_size], [require_approval_for],
    [block_pii], [block_secrets], and the last two are always there. *)
Theorem policy_keys D a σ overrides o :
  module_loaded D a σ → configOf σ overrides = Some o →
  ∃ r σ' ps,
    buildDefaultPolicies D overrides σ = Ok r σ'
    ∧ policiesOf σ' r = Some ps
    ∧ dom ps ⊆ {[ "allowed_domains"; "max_query_size"; "require_approval_for";
                  "block_pii"; "block_secrets" ]}
    ∧ "block_pii" ∈ dom ps
    ∧ "block_secrets" ∈ dom ps.
Proof.
  intros Hload Hcfg.
  destruct (build_built D a σ overrides o Hload Hcfg) as (r & σ' & Hrun & HB).
  exists r, σ', (policiesFor a σ o).
  split; [done|]. split; [by eapply Built_policiesOf|].
  split; [apply policiesFor_dom|]. split; apply elem_of_dom.
  - by rewrite policiesFor_block_pii.
  - by rewrite policiesFor_block_secrets.
Qed.

Lemma policy_keys_witness :
  module_loaded D0 a0 store1 ∧ configOf store1 (VRef c0) = Some exampleOverrides
  ∧ ∃ r σ' ps,
      buildDefaultPolicies D0 (VRef c0) store1 = Ok r σ'
      ∧ policiesOf σ' r = Some ps
      ∧ dom ps ⊆ {[ "allowed_domains"; "max_query_size"; "require_approval_for";
                    "block_pii"; "block_secrets" ]}
      ∧ "block_pii" ∈ dom ps
      ∧ "block_secrets" ∈ dom ps.
Proof.
  assert (H1 : module_loaded D0 a0 store1) by by_evaluation.
  assert (H2 : configOf store1 (VRef c0) = Some exampleOverrides) by by_evaluation.
  exact (conj H1 (conj H2
           (policy_keys D0 a0 store1 (VRef c0) exampleOverrides H1 H2))).
Defined.

(** C10.  The boolean flags have no opt-out by [null]: a [null] [blockPii]
    or [blockSecrets] is treated as unset, and the key is emitted with the
    value [true]. *)
Theorem null_flags D a σ overrides o :
  module_loaded D a σ → configOf σ overrides = Some o →
  ∃ r σ' ps,
    buildDefaultPolicies D overrides σ = Ok r σ'
    ∧ policiesOf σ' r = Some ps
    ∧ (field o "blockPii" = VNull → ps !! "block_pii" = Some (VBool true))
    ∧ (field o "blockSecrets" = VNull →
         ps !! "block_secrets" = Some (VBool true)).
Proof.
  intros Hload Hcfg.
  destruct (build_built D a σ overrides o Hload Hcfg) as (r & σ' & Hrun & HB).
  exists r, σ', (policiesFor a σ o).
  split; [done|]. split; [by eapply Built_policiesOf|].
  rewrite policiesFor_block_pii, policiesFor_block_secrets.
  split; by intros ->.
Qed.

Lemma null_flags_witness :
  module_loaded D0 a0 store1 ∧ configOf store1 (VRef c0) = Some exampleOverrides
  ∧ ∃ r σ' ps,
      buildDefaultPolicies D0 (VRef c0) store1 = Ok r σ'
      ∧ policiesOf σ' r = Some ps
      ∧ ps !! "block_pii" = Some (VBool true).
Proof.
  assert (H1 : module_loaded D0 a0 store1) by by_evaluation.
  assert (H2 : configOf store1 (VRef c0) = Some exampleOverrides) by by_evaluation.
  refine (conj H1 (conj H2 _)).
  destruct (null_flags D0 a0 store1 (VRef c0) exampleOverrides H1 H2)
    as (r & σ' & ps & Hrun & Hps & Hpii & _).
  exists r, σ', ps. exact (conj Hrun (conj Hps (Hpii eq_refl))).
Defined.

(** *** Trees are stable when the store grows *)







Lemma getConfig_size D a σ this othis c o r σ' :
  σ !! D = Some (defaultsObject a) →
  σ !! this = Some othis →
  field othis "config" = VRef c →
  σ !! c = Some o →
  valid σ (field o "allowedDomains") →
  getConfig D this σ = Ok r σ' → size σ' = 2 + size σ.
Proof.
  intros HD Hthis Hcfg Hc Hval.
  rewrite (getConfig_run D a σ this othis c o) by done.
  unfold afterGetConfig. cbv zeta. simpl. intros [= <- <-].
  rewrite map_size_insert_None by apply fresh_lookup.
  by rewrite map_size_insert_None by apply fresh_lookup.
Qed.




End Results.

(* ===================================================================== *)
(** ** The request layer: workspace scoping and the backoff schedule *)
(* ===================================================================== *)

Section RequestLayerFacts.

Variable transport : nat → Outgoing → Reply.
Variable cfg : ClientConfig.

Lemma log_retry o d hint (log : list Event) :
  transmitted (Transmit o :: Sleep d hint :: log) = o :: transmitted log
  ∧ delays (Transmit o :: Sleep d hint :: log) = d :: delays log
  ∧ warnings (Transmit o :: Sleep d hint :: log) = warnings log.
Proof. done. Qed.

(** One run of the retry loop started at attempt [a]: [k] retries, each
    after its scheduled delay, the same request transmitted every time, and
    no warning. *)
Lemma attempts_log (retriesLeft a : nat) (o : Outgoing) :
  ∃ k : nat, (k ≤ retriesLeft)%nat
       ∧ transmitted (attempts transport cfg retriesLeft a o).1 = replicate (S k) o
       ∧ delays (attempts transport cfg retriesLeft a o).1 = backoffDelay cfg <$> seq a k
       ∧ warnings (attempts transport cfg retriesLeft a o).1 = [].
Proof.
  revert a. induction retriesLeft as [|r IH]; intros a.
  - exists 0. split; [lia|]. cbn [attempts].
    destruct (transport a o) as [|status payload hint pv]; [done|].
    destruct (successStatus status); [done|].
    by destruct (retryableStatus status).
  - destruct (IH (S a)) as (k & Hk & Ht & Hd & Hw).
    assert (Hagain :
      ∀ hint,
        let log := Transmit o :: Sleep (backoffDelay cfg a) hint
                     :: (attempts transport cfg r (S a) o).1 in
        transmitted log = replicate (S (S k)) o
        ∧ delays log = backoffDelay cfg <$> seq a (S k)
        ∧ warnings log = []).
    { intros hint. cbv zeta.
      destruct (log_retry o (backoffDelay cfg a) hint
                  (attempts transport cfg r (S a) o).1) as (-> & -> & ->).
      by rewrite Ht, Hd, Hw. }
    cbn [attempts].
    destruct (transport a o) as [|status payload hint pv].
    + exists (S k). split; [lia|]. apply Hagain.
    + destruct (successStatus status); [exists 0; split; [lia|done]|].
      destruct (retryableStatus status).
      * exists (S k). split; [lia|]. apply Hagain.
      * exists 0. split; [lia|done].
Qed.

(** When every attempt fails in transport, all the retries are made. *)
Lemma attempts_exhaust (retriesLeft a : nat) (o : Outgoing) :
  (∀ n, transport n o = TransportFailure) →
  delays (attempts transport cfg retriesLeft a o).1
  = backoffDelay cfg <$> seq a retriesLeft.
Proof.
  intros Hfail. revert a. induction retriesLeft as [|r IH]; intros a.
  - cbn [attempts]. by rewrite Hfail.
  - cbn [attempts]. rewrite Hfail. cbn [fst retryAfterOf].
    destruct (log_retry o (backoffDelay cfg a) None
                (attempts transport cfg r (S a) o).1) as (_ & -> & _).
    by rewrite IH.
Qed.

Lemma send_log spec :
  transmitted (send transport cfg spec).1
  = transmitted (attempts transport cfg (maxAttempts cfg - 1) 1
                   (outgoing cfg spec (resolveWorkspace cfg spec))).1
  ∧ delays (send transport cfg spec).1
    = delays (attempts transport cfg (maxAttempts cfg - 1) 1
                (outgoing cfg spec (resolveWorkspace cfg spec))).1.
Proof.
  unfold send. cbv zeta. cbn [fst].
  unfold transmitted, delays. rewrite !omap_app.
  by destruct (resolveWorkspace cfg spec).
Qed.

(** C9.  The backoff delay before retry [n] (counted from 1, at most
    [maxAttempts - 1] retries) is [baseDelay * backoffMultiplier^(n-1)]:
    the delays of a call are exactly the first [k] terms of that sequence,
    [k] being the number of retries made, and all [maxAttempts - 1] of them
    when every attempt fails in transport. *)
Theorem backoff_schedule spec :
  let log := (send transport cfg spec).1 in
  let scheduled (n : nat) : Q :=
    (baseDelay cfg * backoffMultiplier cfg ^ (Z.of_nat n - 1))%Q in
  (∃ k : nat, (k ≤ maxAttempts cfg - 1)%nat
      ∧ length (transmitted log) = S k
      ∧ delays log = scheduled <$> seq 1 k)
  ∧ (∀ (n : nat) (d : Q), (1 ≤ n)%nat →
       delays log !! (n - 1)%nat = Some d → d = scheduled n)
  ∧ ((∀ n o, transport n o = TransportFailure) →
       delays log = scheduled <$> seq 1 (maxAttempts cfg - 1)).
Proof.
  cbv zeta. destruct (send_log spec) as [Ht Hd]. rewrite Ht, Hd.
  set (o := outgoing cfg spec (resolveWorkspace cfg spec)).
  destruct (attempts_log (maxAttempts cfg - 1) 1 o) as (k & Hk & Htr & Hdl & _).
  split; [|split].
  - exists k. split; [done|]. split; [|done].
    by rewrite Htr, length_replicate.
  - intros n d Hn Hlook. rewrite Hdl in Hlook.
    rewrite list_lookup_fmap in Hlook.
    destruct (seq 1 k !! (n - 1)%nat) as [m|] eqn:Hm; [|done].
    apply lookup_seq in Hm as [-> _]. simpl in Hlook.
    injection Hlook as <-. unfold backoffDelay. do 3 f_equal. lia.
  - intros Hfail. by apply attempts_exhaust.
Qed.

Lemma send_warnings spec :
  warnings (send transport cfg spec).1
  = match resolveWorkspace cfg spec with
    | Some _ => []
    | None => ["workspaceId is not set"]
    end.
Proof.
  unfold send. cbv zeta. cbn [fst]. unfold warnings. rewrite omap_app.
  destruct (attempts_log (maxAttempts cfg - 1) 1
              (outgoing cfg spec (resolveWorkspace cfg spec)))
    as (k & _ & _ & _ & Hw).
  unfold warnings in Hw. rewrite Hw.
  by destruct (resolveWorkspace cfg spec).
Qed.

Lemma send_transmitted spec o :
  o ∈ transmitted (send transport cfg spec).1 →
  o = outgoing cfg spec (resolveWorkspace cfg spec).
Proof.
  destruct (send_log spec) as [-> _].
  destruct (attempts_log (maxAttempts cfg - 1) 1
              (outgoing cfg spec (resolveWorkspace cfg spec)))
    as (k & _ & -> & _).
  by intros ?%elem_of_replicate_inv.
Qed.

Lemma mergeWorkspace_lookup w b :
  mergeWorkspace w b !! workspaceKey
  = match default ∅ b !! workspaceKey with
    | Some v => Some v
    | None => Some (JString w)
    end.
Proof.
  unfold mergeWorkspace. rewrite lookup_union.
  rewrite lookup_singleton_eq.
  by destruct (default ∅ b !! workspaceKey).
Qed.

Lemma mergeWorkspace_other w b k :
  k ≠ workspaceKey → mergeWorkspace w b !! k = default ∅ b !! k.
Proof.
  intros Hk. unfold mergeWorkspace. rewrite lookup_union.
  rewrite lookup_singleton_ne by done.
  by destruct (default ∅ b !! k).
Qed.

(** Workspace scoping.  A per-call workspace override is what is transmitted,
    whatever the client default: for POST, PUT and PATCH as the
    [workspaceId] field of the body, unless the caller's body has a
    [workspaceId] field of its own, every other field of the body being
    kept; for GET and DELETE as the [workspaceId]
    query parameter appended to the caller's.  Without an override the
    client default is used in the same way.  With neither, the request goes
    out as the caller gave it, exactly one warning is emitted for the call,
    and the call is not failed for it: the request is transmitted and a
    2xx reply to it is returned as the result. *)
Theorem workspace_injection spec :
  let log := (send transport cfg spec).1 in
  let own := default ∅ (body spec) !! workspaceKey in
  let sent (w : string) (o : Outgoing) : Prop :=
    if bearsBody (method spec)
    then (own = None → bodyWorkspace o = Some (JString w))
         ∧ (∃ b, out_body o = Some b
                 ∧ ∀ k, k ≠ workspaceKey → b !! k = default ∅ (body spec) !! k)
         ∧ out_query o = query spec
    else out_query o = (query spec ++ [(workspaceKey, w)])%list
         ∧ out_body o = body spec in
  (∃ o, head (transmitted log) = Some o)
  ∧ (∀ w, workspaceOverride spec = Some w →
       warnings log = [] ∧ ∀ o, o ∈ transmitted log → sent w o)
  ∧ (∀ w, workspaceOverride spec = None → defaultWorkspaceId cfg = Some w →
       warnings log = [] ∧ ∀ o, o ∈ transmitted log → sent w o)
  ∧ (workspaceOverride spec = None → defaultWorkspaceId cfg = None →
       length (warnings log) = 1%nat
       ∧ (∀ o, o ∈ transmitted log →
            out_body o = body spec ∧ out_query o = query spec)
       ∧ (∀ o status payload hint marker,
            head (transmitted log) = Some o →
            transport 1 o = Response status payload hint marker →
            successStatus status = true →
            (send transport cfg spec).2 = inr payload)).
Proof.
  cbv zeta.
  assert (Hsent : ∀ w, resolveWorkspace cfg spec = Some w →
            ∀ o, o ∈ transmitted (send transport cfg spec).1 →
            if bearsBody (method spec)
            then (default ∅ (body spec) !! workspaceKey = None →
                  bodyWorkspace o = Some (JString w))
                 ∧ (∃ b, out_body o = Some b
                         ∧ ∀ k, k ≠ workspaceKey →
                                b !! k = default ∅ (body spec) !! k)
                 ∧ out_query o = query spec
            else out_query o = (query spec ++ [(workspaceKey, w)])%list
                 ∧ out_body o = body spec).
  { intros w Hw o Ho. apply send_transmitted in Ho as ->. rewrite Hw.
    unfold bodyWorkspace, outgoing. cbn [out_body out_query].
    destruct (bearsBody (method spec)); [|done].
    split; [|split; [|done]].
    - intros Hown. cbn. by rewrite mergeWorkspace_lookup, Hown.
    - eexists. split; [done|]. intros k Hk. by apply mergeWorkspace_other. }
  split; [|split; [|split]].
  - destruct (send_log spec) as [-> _].
    destruct (attempts_log (maxAttempts cfg - 1) 1
                (outgoing cfg spec (resolveWorkspace cfg spec)))
      as (k & _ & -> & _).
    by eexists.
  - intros w Hov.
    assert (Hres : resolveWorkspace cfg spec = Some w)
      by (unfold resolveWorkspace; by rewrite Hov).
    split; [by rewrite send_warnings, Hres | by apply Hsent].
  - intros w Hov Hdef.
    assert (Hres : resolveWorkspace cfg spec = Some w)
      by (unfold resolveWorkspace; by rewrite Hov).
    split; [by rewrite send_warnings, Hres | by apply Hsent].
  - intros Hov Hdef.
    assert (Hres : resolveWorkspace cfg spec = None)
      by (unfold resolveWorkspace; by rewrite Hov).
    split; [by rewrite send_warnings, Hres|]. split.
    + intros o Ho. apply send_transmitted in Ho as ->. by rewrite Hres.
    + intros o status payload hint marker Hhead Hreply Hok.
      assert (Ho : o = outgoing cfg spec (resolveWorkspace cfg spec)).
      { apply send_transmitted. by eapply head_Some_elem_of. }
      unfold send. cbv zeta. cbn [snd]. rewrite <- Ho.
      destruct (maxAttempts cfg - 1)%nat; cbn [attempts];
        by rewrite Hreply, Hok.
Qed.

End RequestLayerFacts.

(** A GET with an override: the override is the appended query parameter,
    and nothing is warned about. *)
Example get_with_override :
  let spec := {| method := GET; path := "/agents"; body := None;
                 query := [("limit", "10")];
                 workspaceOverride := Some "workspace-call" |} in
  out_query <$> transmitted (send alwaysOk exampleClient spec).1
  = [[("limit", "10"); ("workspaceId", "workspace-call")]]
  ∧ warnings (send alwaysOk exampleClient spec).1 = [].
Proof. by vm_compute. Qed.

(** No override and no client default: one warning, the request as given. *)
Example post_without_workspace :
  let client := {| apiKey := "anc_abc123"; baseUrl := "https://api.example.test";
                   defaultWorkspaceId := None; maxAttempts := 4;
                   baseDelay := 100; backoffMultiplier := 2 |} in
  let spec := {| method := POST; path := "/agents";
                 body := Some (<["name" := JString "support-bot"]> ∅);
                 query := []; workspaceOverride := None |} in
  out_body <$> transmitted (send alwaysOk client spec).1 = [body spec]
  ∧ length (warnings (send alwaysOk client spec).1) = 1%nat
  ∧ (send alwaysOk client spec).2 = inr JNull.
Proof. by vm_compute. Qed.

(** On a key collision this model lets the field of the caller's body win
    over the override, as section 4.1 reports; the specification marks that
    order as not guaranteed and recommends the opposite one. *)
Lemma override_loses_to_body_field :
  workspaceOverride collidingRequest = Some "workspace-call"
  ∧ bodyWorkspace <$> transmitted (send alwaysOk exampleClient collidingRequest).1
    = [Some (JString "workspace-body")]
  ∧ JString "workspace-body" ≠ JString "workspace-call".
Proof. split; [reflexivity|]. split; [by vm_compute|discriminate]. Qed.

(** Three successive retries of a client with base delay 100 and multiplier
    2 wait 100, 200 and 400. *)
Example backoff_three_retries :
  delays (send alwaysDown exampleClient collidingRequest).1
  = [100%Q; 200%Q; 400%Q].
Proof. by vm_compute. Qed.


(* ===================================================================== *)
(** ** More of the builder: what else the code of policies.ts shows *)
(* ===================================================================== *)

Section MoreOfTheBuilder.

Implicit Types (σ : Store) (o : HeapObj) (v : Val) (k : string) (l p r : loc).

(** X1.  The flags are not validated or coerced: [??] replaces only [null]
    and [undefined], so any other value of [blockPii] or [blockSecrets],
    a falsy one such as [0] or the empty string included, is emitted as
    the value it is. *)
Theorem flags_not_coerced D a σ overrides o :
  module_loaded D a σ → configOf σ overrides = Some o →
  ∃ r σ' ps,
    buildDefaultPolicies D overrides σ = Ok r σ'
    ∧ policiesOf σ' r = Some ps
    ∧ (isNullish (field o "blockPii") = false →
         ps !! "block_pii" = Some (field o "blockPii"))
    ∧ (isNullish (field o "blockSecrets") = false →
         ps !! "block_secrets" = Some (field o "blockSecrets")).
Proof.
  intros Hload Hcfg.
  destruct (build_built D a σ overrides o Hload Hcfg) as (r & σ' & Hrun & HB).
  exists r, σ', (policiesFor a σ o).
  split; [done|]. split; [by eapply Built_policiesOf|].
  rewrite policiesFor_block_pii, policiesFor_block_secrets.
  split; by intros ->.
Qed.

Lemma flags_not_coerced_witness :
  module_loaded D0 a0 store4 ∧ configOf store4 (VRef c0) = Some untypedOverrides
  ∧ ∃ r σ' ps,
      buildDefaultPolicies D0 (VRef c0) store4 = Ok r σ'
      ∧ policiesOf σ' r = Some ps
      ∧ ps !! "block_pii" = Some (VNumber 0)
      ∧ ps !! "block_secrets" = Some (VString "").
Proof.
  assert (H1 : module_loaded D0 a0 store4) by by_evaluation.
  assert (H2 : configOf store4 (VRef c0) = Some untypedOverrides) by by_evaluation.
  refine (conj H1 (conj H2 _)).
  destruct (flags_not_coerced D0 a0 store4 (VRef c0) untypedOverrides H1 H2)
    as (r & σ' & ps & Hrun & Hps & Hpii & Hsec).
  exists r, σ', ps.
  exact (conj Hrun (conj Hps (conj (Hpii eq_refl) (Hsec eq_refl)))).
Defined.

(** X2.  Only the five camelCase fields of the configuration are read: two
    configuration objects that agree on [allowedDomains], [maxQuerySize],
    [requireApprovalFor], [blockPii] and [blockSecrets] give the same
    policies, whatever else they hold (an unknown option, or an option
    spelled in snake_case, changes nothing). *)
Theorem only_five_fields_read D a σ overrides1 overrides2 o1 o2 :
  module_loaded D a σ →
  configOf σ overrides1 = Some o1 → configOf σ overrides2 = Some o2 →
  field o1 "allowedDomains" = field o2 "allowedDomains" →
  field o1 "maxQuerySize" = field o2 "maxQuerySize" →
  field o1 "requireApprovalFor" = field o2 "requireApprovalFor" →
  field o1 "blockPii" = field o2 "blockPii" →
  field o1 "blockSecrets" = field o2 "blockSecrets" →
  ∃ r1 σ1 r2 σ2 ps,
    buildDefaultPolicies D overrides1 σ = Ok r1 σ1
    ∧ buildDefaultPolicies D overrides2 σ = Ok r2 σ2
    ∧ policiesOf σ1 r1 = Some ps
    ∧ policiesOf σ2 r2 = Some ps.
Proof.
  intros Hload Hcfg1 Hcfg2 H1 H2 H3 H4 H5.
  destruct (build_built D a σ overrides1 o1 Hload Hcfg1) as (r1 & σ1 & Hrun1 & HB1).
  destruct (build_built D a σ overrides2 o2 Hload Hcfg2) as (r2 & σ2 & Hrun2 & HB2).
  exists r1, σ1, r2, σ2, (policiesFor a σ o1).
  split; [done|]. split; [done|]. split; [by eapply Built_policiesOf|].
  rewrite (Built_policiesOf D a σ o2 r2 σ2 HB2). f_equal.
  apply map_eq. intros k. symmetry. by apply policiesFor_agree.
Qed.

Lemma only_five_fields_read_witness :
  module_loaded D0 a0 store4
  ∧ configOf store4 (VRef c1) = Some snakeCaseOverrides
  ∧ configOf store4 VUndefined = Some (plainObject ∅)
  ∧ ∃ r1 σ1 r2 σ2 ps,
      buildDefaultPolicies D0 (VRef c1) store4 = Ok r1 σ1
      ∧ buildDefaultPolicies D0 VUndefined store4 = Ok r2 σ2
      ∧ policiesOf σ1 r1 = Some ps
      ∧ policiesOf σ2 r2 = Some ps.
Proof.
  assert (H1 : module_loaded D0 a0 store4) by by_evaluation.
  assert (H2 : configOf store4 (VRef c1) = Some snakeCaseOverrides) by by_evaluation.
  assert (H3 : configOf store4 VUndefined = Some (plainObject ∅)) by by_evaluation.
  refine (conj H1 (conj H2 (conj H3 _))).
  exact (only_five_fields_read D0 a0 store4 (VRef c1) VUndefined
           snakeCaseOverrides (plainObject ∅) H1 H2 H3
           eq_refl eq_refl eq_refl eq_refl eq_refl).
Defined.

(** X3.  Which keys the result has: [block_pii] and [block_secrets]
    always; [allowed_domains] exactly when [allowedDomains] is an array;
    [max_query_size] unless [maxQuerySize] is [null]; [require_approval_for]
    unless [requireApprovalFor] is [null]; and no other.  So the smallest
    result, with both nullable fields nulled and no domain list, has the two
    flags only. *)
Theorem exact_key_set D a σ overrides o :
  module_loaded D a σ → configOf σ overrides = Some o →
  ∃ r σ' ps,
    buildDefaultPolicies D overrides σ = Ok r σ'
    ∧ policiesOf σ' r = Some ps
    ∧ dom ps
      = {[ "block_pii"; "block_secrets" ]}
        ∪ (if arrayValued σ (field o "allowedDomains")
           then {[ "allowed_domains" ]} else ∅)
        ∪ (if isNull (field o "maxQuerySize")
           then ∅ else {[ "max_query_size" ]})
        ∪ (if isNull (field o "requireApprovalFor")
           then ∅ else {[ "require_approval_for" ]}).
Proof.
  intros Hload Hcfg.
  destruct (build_built D a σ overrides o Hload Hcfg) as (r & σ' & Hrun & HB).
  exists r, σ', (policiesFor a σ o).
  split; [done|]. split; [by eapply Built_policiesOf|].
  apply set_eq. intros k. rewrite elem_of_dom.
  destruct (decide (k ∈ policyKeys)) as [Hin|Hout].
  - unfold policyKeys in Hin. set_unfold in Hin.
    destruct Hin as [ [ [ [ -> | -> ] | -> ] | -> ] | -> ].
    + rewrite policiesFor_allowed_domains.
      destruct (arrayValued σ _), (isNull (field o "maxQuerySize")),
        (isNull (field o "requireApprovalFor"));
        rewrite ?is_Some_alt; set_solver.
    + rewrite policiesFor_max_query_size.
      destruct (arrayValued σ _), (field o "maxQuerySize"),
        (isNull (field o "requireApprovalFor"));
        simpl; rewrite ?is_Some_alt; set_solver.
    + rewrite policiesFor_require_approval_for.
      destruct (arrayValued σ _), (isNull (field o "maxQuerySize")),
        (field o "requireApprovalFor");
        simpl; rewrite ?is_Some_alt; set_solver.
    + rewrite policiesFor_block_pii. rewrite is_Some_alt. set_solver.
    + rewrite policiesFor_block_secrets. rewrite is_Some_alt. set_solver.
  - assert (Hnone : policiesFor a σ o !! k = None).
    { apply not_elem_of_dom. intros Hk. apply Hout. by eapply policiesFor_dom. }
    rewrite Hnone, is_Some_alt. unfold policyKeys in Hout.
    destruct (arrayValued σ _), (isNull (field o "maxQuerySize")),
      (isNull (field o "requireApprovalFor")); set_solver.
Qed.

Lemma exact_key_set_witness :
  module_loaded D0 a0 store1 ∧ configOf store1 (VRef c0) = Some exampleOverrides
  ∧ ∃ r σ' ps,
      buildDefaultPolicies D0 (VRef c0) store1 = Ok r σ'
      ∧ policiesOf σ' r = Some ps
      ∧ dom ps = {[ "block_pii"; "block_secrets" ]} ∪ {[ "allowed_domains" ]}
                 ∪ ∅ ∪ {[ "require_approval_for" ]}.
Proof.
  assert (H1 : module_loaded D0 a0 store1) by by_evaluation.
  assert (H2 : configOf store1 (VRef c0) = Some exampleOverrides) by by_evaluation.
  exact (conj H1 (conj H2
           (exact_key_set D0 a0 store1 (VRef c0) exampleOverrides H1 H2))).
Defined.

(** X4.  The default list is shared, not copied: a result built without
    [requireApprovalFor] holds the very array reference that
    [DEFAULT_POLICY_CONFIG.requireApprovalFor] holds, and shows whatever
    elements that array has when [getConfig] runs.  Elements written into
    it through one result therefore appear in every later default result. *)
Theorem default_list_is_shared D a σ overrides o :
  module_loaded D a σ → configOf σ overrides = Some o →
  field o "requireApprovalFor" = VUndefined →
  ∃ r σ' ps,
    buildDefaultPolicies D overrides σ = Ok r σ'
    ∧ policiesOf σ' r = Some ps
    ∧ ps !! "require_approval_for" = Some (VRef a)
    ∧ (∃ d, σ' !! D = Some d ∧ field d "requireApprovalFor" = VRef a)
    ∧ ∀ xs, listOf σ (VRef a) = Some xs → listOf σ' (VRef a) = Some xs.
Proof.
  intros Hload Hcfg Hunset.
  destruct (build_built D a σ overrides o Hload Hcfg) as (r & σ' & Hrun & HB).
  exists r, σ', (policiesFor a σ o).
  split; [done|]. split; [by eapply Built_policiesOf|].
  split; [|split].
  - by rewrite policiesFor_require_approval_for, Hunset.
  - destruct HB as [_ _ _ [_ HD]]. by exists (defaultsObject a).
  - intros xs. apply listOf_mono. by destruct HB.
Qed.

Lemma default_list_is_shared_witness :
  module_loaded D0 a0 store5 ∧ configOf store5 VUndefined = Some (plainObject ∅)
  ∧ field (plainObject ∅) "requireApprovalFor" = VUndefined
  ∧ ∃ r σ' ps,
      buildDefaultPolicies D0 VUndefined store5 = Ok r σ'
      ∧ policiesOf σ' r = Some ps
      ∧ ps !! "require_approval_for" = Some (VRef a0)
      ∧ listOf σ' (VRef a0)
        = Some [VString "delete"; VString "update"; VString "export";
                VString "publish"].
Proof.
  assert (H1 : module_loaded D0 a0 store5) by by_evaluation.
  assert (H2 : configOf store5 VUndefined = Some (plainObject ∅)) by by_evaluation.
  assert (H3 : field (plainObject ∅) "requireApprovalFor" = VUndefined)
    by by_evaluation.
  refine (conj H1 (conj H2 (conj H3 _))).
  destruct (default_list_is_shared D0 a0 store5 VUndefined (plainObject ∅) H1 H2 H3)
    as (r & σ' & ps & Hrun & Hps & Hraf & _ & Hlist).
  exists r, σ', ps.
  exact (conj Hrun (conj Hps (conj Hraf (Hlist _ eq_refl)))).
Defined.

(** X5.  Every call of [getConfig] returns new objects: two calls on the
    same pack give two different result objects with two different
    [policies] objects, none of which existed before, and each result has
    the single property [policies].  Nothing is cached, so a caller who
    edits one result cannot change another. *)
Theorem results_are_fresh D a σ this c o :
  module_loaded D a σ →
  σ !! this = Some (plainObject (<["config" := VRef c]> ∅)) →
  σ !! c = Some o →
  ∃ r1 σ1 r2 σ2 p1 p2,
    getConfig D this σ = Ok r1 σ1
    ∧ getConfig D this σ1 = Ok r2 σ2
    ∧ σ2 !! r1 = Some (plainObject (<["policies" := VRef p1]> ∅))
    ∧ σ2 !! r2 = Some (plainObject (<["policies" := VRef p2]> ∅))
    ∧ NoDup [r1; p1; r2; p2]
    ∧ Forall (λ l, σ !! l = None) [r1; p1; r2; p2].
Proof.
  intros Hload Hthis Hc.
  destruct (getConfig_built D a σ this _ c o Hload Hthis eq_refl Hc)
    as (r1 & σ1 & Hrun1 & [(p1 & Hr1 & Hp1 & Hfp1) Hsub1 Hfr1 Hload1]).
  pose proof (lookup_weaken _ _ _ _ Hthis Hsub1) as Hthis'.
  pose proof (lookup_weaken _ _ _ _ Hc Hsub1) as Hc'.
  destruct (getConfig_built D a σ1 this _ c o Hload1 Hthis' eq_refl Hc')
    as (r2 & σ2 & Hrun2 & [(p2 & Hr2 & Hp2 & Hfp2) Hsub2 Hfr2 Hload2]).
  exists r1, σ1, r2, σ2, p1, p2.
  split; [done|]. split; [done|].
  split; [by eapply lookup_weaken|]. split; [done|].
  assert (Hr1p1 : r1 ≠ p1).
  { intros ->. rewrite Hr1 in Hp1. injection Hp1 as Heq.
    assert (Hk : policiesFor a σ o !! "block_pii" = None)
      by (by rewrite <- Heq).
    by rewrite policiesFor_block_pii in Hk. }
  assert (Hr2p2 : r2 ≠ p2).
  { intros ->. rewrite Hr2 in Hp2. injection Hp2 as Heq.
    assert (Hk : policiesFor a σ1 o !! "block_pii" = None)
      by (by rewrite <- Heq).
    by rewrite policiesFor_block_pii in Hk. }
  split.
  - repeat constructor; set_unfold; try tauto;
      intros H; repeat (destruct H as [H|H]); try done; subst; congruence.
  - repeat constructor; try done; by eapply lookup_weaken_None.
Qed.

Lemma results_are_fresh_witness :
  module_loaded D0 a0 store3
  ∧ store3 !! t0 = Some (plainObject (<["config" := VRef c0]> ∅))
  ∧ store3 !! c0 = Some exampleOverrides
  ∧ ∃ r1 σ1 r2 σ2 p1 p2,
      getConfig D0 t0 store3 = Ok r1 σ1
      ∧ getConfig D0 t0 σ1 = Ok r2 σ2
      ∧ σ2 !! r1 = Some (plainObject (<["policies" := VRef p1]> ∅))
      ∧ σ2 !! r2 = Some (plainObject (<["policies" := VRef p2]> ∅))
      ∧ NoDup [r1; p1; r2; p2]
      ∧ Forall (λ l, store3 !! l = None) [r1; p1; r2; p2].
Proof.
  assert (H1 : module_loaded D0 a0 store3) by by_evaluation.
  assert (H2 : store3 !! t0 = Some (plainObject (<["config" := VRef c0]> ∅)))
    by by_evaluation.
  assert (H3 : store3 !! c0 = Some exampleOverrides) by by_evaluation.
  exact (conj H1 (conj H2 (conj H3
           (results_are_fresh D0 a0 store3 t0 c0 exampleOverrides H1 H2 H3)))).
Defined.

Lemma run_bind_throw {A B} (m : M A) (f : A → M B) σ e σ' :
  m σ = Throw e σ' → (m ≫= f) σ = Throw e σ'.
Proof. intros H. unfold mbind, M_bind, bind. by rewrite H. Qed.

(** X6.  The default parameter stands in for [undefined] only.  A [null]
    configuration is stored as it is by the constructor, and [getConfig]
    then throws a TypeError at its first property read, in every store;
    no object that existed before is changed. *)
Theorem null_config_throws D σ :
  ∃ this σ1 σ',
    newDefaultPolicyPack VNull σ = Ok this σ1
    ∧ getProp (VRef this) "config" σ1 = Ok VNull σ1
    ∧ getConfig D this σ1 = Throw TypeError σ'
    ∧ buildDefaultPolicies D VNull σ = Throw TypeError σ'
    ∧ σ ⊆ σ'.
Proof.
  set (t := fresh (dom σ)).
  set (σ1 := <[t := plainObject (<["config" := VNull]> ∅)]> σ).
  set (p := fresh (dom σ1)).
  assert (Ht : σ !! t = None) by apply fresh_lookup.
  assert (Hp : σ1 !! p = None) by apply fresh_lookup.
  assert (Ht1 : σ1 !! t = Some (plainObject (<["config" := VNull]> ∅)))
    by apply lookup_insert_eq.
  assert (Hnew : newDefaultPolicyPack VNull σ = Ok t σ1).
  { unfold newDefaultPolicyPack. simpl.
    erewrite run_bind by apply run_ret.
    erewrite run_bind by apply run_alloc.
    erewrite run_bind by apply run_setProp_new. apply run_ret. }
  assert (Hget : getConfig D t σ1 = Throw TypeError (<[p := plainObject ∅]> σ1)).
  { unfold getConfig.
    erewrite run_bind by apply run_alloc. fold p.
    erewrite run_bind by (by apply run_getProp_old).
    rewrite field_insert_eq. by apply run_bind_throw. }
  exists t, σ1, (<[p := plainObject ∅]> σ1).
  split; [done|]. split; [|split; [done|split]].
  - unfold getProp. rewrite Ht1. by rewrite field_insert_eq.
  - unfold buildDefaultPolicies. by erewrite run_bind by exact Hnew.
  - etrans; by apply insert_subseteq.
Qed.

(** *** Assignments by the caller *)

Lemma run_setProp σ l o k v :
  σ !! l = Some o →
  setProp l k v σ = Ok tt (<[l := mkObj (elems o) (<[k := v]> (props o))]> σ).
Proof. intros Hl. unfold setProp. by rewrite Hl. Qed.

Lemma valid_dom σ σ' v : dom σ ⊆ dom σ' → valid σ v → valid σ' v.
Proof.
  intros Hdom. destruct v; simpl; try done.
  rewrite <- !elem_of_dom. apply Hdom.
Qed.

(** Assigning a live value to a property of an object keeps the store
    closed. *)
Lemma closed_setProp σ l o k v :
  closed σ → σ !! l = Some o → valid σ v →
  closed (<[l := mkObj (elems o) (<[k := v]> (props o))]> σ).
Proof.
  intros Hcl Hl Hv.
  assert (Hdom : dom σ ⊆ dom (<[l := mkObj (elems o) (<[k := v]> (props o))]> σ)).
  { rewrite dom_insert_L. set_solver. }
  assert (Hobj : ∀ o', obj_closed σ o' →
            obj_closed (<[l := mkObj (elems o) (<[k := v]> (props o))]> σ) o').
  { intros o' [Hp He]. split.
    - intros k' v' Hk'. eapply valid_dom; [done|]. by apply (Hp k').
    - eapply Forall_impl; [done|]. intros v'. by apply valid_dom. }
  destruct (Hcl l o Hl) as [Hp He].
  apply map_Forall_insert_2.
  - apply Hobj. split; [|done]. simpl. by apply map_Forall_insert_2.
  - intros l' o' Hl'. apply Hobj. by apply (Hcl l').
Qed.

Lemma newDefaultPolicyPack_object σ c :
  newDefaultPolicyPack (VRef c) σ
  = Ok (fresh (dom σ))
       (<[fresh (dom σ) := plainObject (<["config" := VRef c]> ∅)]> σ).
Proof.
  unfold newDefaultPolicyPack. simpl.
  erewrite run_bind by apply run_ret.
  erewrite run_bind by apply run_alloc.
  erewrite run_bind by apply run_setProp_new. apply run_ret.
Qed.

(** X7.  The constructor keeps the caller's configuration object by
    reference and [getConfig] reads it when it is called: a property the
    caller assigns on the object after constructing the pack is honoured
    exactly as if it had been assigned before (the policies are those of
    building from the changed object). *)
Theorem config_read_at_call_time D a σ c o k v :
  module_loaded D a σ → σ !! c = Some o → c ≠ D → valid σ v →
  ∃ this σ1 σ2 r σ' ps,
    newDefaultPolicyPack (VRef c) σ = Ok this σ1
    ∧ getProp (VRef this) "config" σ1 = Ok (VRef c) σ1
    ∧ setProp c k v σ1 = Ok tt σ2
    ∧ getConfig D this σ2 = Ok r σ'
    ∧ policiesOf σ' r = Some ps
    ∧ ∃ σ3 r' σ'',
        setProp c k v σ = Ok tt σ3
        ∧ buildDefaultPolicies D (VRef c) σ3 = Ok r' σ''
        ∧ policiesOf σ'' r' = Some ps.
Proof.
  intros [Hcl HD] Hc HcD Hv.
  set (t := fresh (dom σ)).
  set (pack := plainObject (<["config" := VRef c]> ∅)).
  set (o' := mkObj (elems o) (<[k := v]> (props o))).
  set (σ1 := <[t := pack]> σ).
  set (σ3 := <[c := o']> σ).
  assert (Ht : σ !! t = None) by apply fresh_lookup.
  assert (Htc : t ≠ c) by (intros Heq; rewrite Heq in Ht; congruence).
  assert (HtD : t ≠ D) by (intros Heq; rewrite Heq in Ht; congruence).
  assert (Hsub1 : σ ⊆ σ1) by (by apply insert_subseteq).
  assert (Hc1 : σ1 !! c = Some o) by (by eapply lookup_weaken).
  assert (Ht1 : σ1 !! t = Some pack) by apply lookup_insert_eq.
  assert (Hcl1 : closed σ1).
  { apply closed_alloc; [done..|]. apply obj_closed_plain.
    apply map_Forall_insert_2; [|apply map_Forall_empty]. simpl. by eexists. }
  assert (Hv1 : valid σ1 v) by (by eapply valid_mono).
  set (σ2 := <[c := o']> σ1).
  assert (Hload2 : module_loaded D a σ2).
  { split; [by apply closed_setProp|].
    unfold σ2, σ1. by rewrite !lookup_insert_ne by done. }
  assert (Hload3 : module_loaded D a σ3).
  { split; [by apply closed_setProp|].
    unfold σ3. by rewrite lookup_insert_ne by done. }
  assert (Ht2 : σ2 !! t = Some pack)
    by (unfold σ2; by rewrite lookup_insert_ne by done).
  assert (Hc2 : σ2 !! c = Some o') by apply lookup_insert_eq.
  assert (Hc3 : σ3 !! c = Some o') by apply lookup_insert_eq.
  assert (Hsub32 : σ3 ⊆ σ2).
  { unfold σ2, σ1, σ3. rewrite insert_insert_ne by done.
    apply insert_subseteq. by rewrite lookup_insert_ne by done. }
  destruct (getConfig_built D a σ2 t pack c o' Hload2 Ht2 eq_refl Hc2)
    as (r & σ' & Hrun & HB).
  destruct (build_built D a σ3 (VRef c) o' Hload3 Hc3)
    as (r' & σ'' & Hrun' & HB').
  exists t, σ1, σ2, r, σ', (policiesFor a σ2 o').
  split; [apply newDefaultPolicyPack_object|].
  split; [unfold getProp; rewrite Ht1; unfold pack; by rewrite field_insert_eq|].
  split; [by apply run_setProp|].
  split; [done|]. split; [by eapply Built_policiesOf|].
  exists σ3, r', σ''. split; [by apply run_setProp|]. split; [done|].
  rewrite (Built_policiesOf D a σ3 o' r' σ'' HB'). f_equal.
  symmetry. apply policiesFor_mono; [done|].
  eapply closed_field; [|exact Hc3]. by destruct Hload3.
Qed.

Lemma config_read_at_call_time_witness :
  module_loaded D0 a0 store2 ∧ store2 !! c0 = Some secretsAllowed
  ∧ c0 ≠ D0 ∧ valid store2 VNull
  ∧ ∃ this σ1 σ2 r σ' ps,
      newDefaultPolicyPack (VRef c0) store2 = Ok this σ1
      ∧ setProp c0 "maxQuerySize" VNull σ1 = Ok tt σ2
      ∧ getConfig D0 this σ2 = Ok r σ'
      ∧ policiesOf σ' r = Some ps.
Proof.
  assert (H1 : module_loaded D0 a0 store2) by by_evaluation.
  assert (H2 : store2 !! c0 = Some secretsAllowed) by by_evaluation.
  assert (H3 : c0 ≠ D0) by discriminate.
  assert (H4 : valid store2 VNull) by exact I.
  refine (conj H1 (conj H2 (conj H3 (conj H4 _)))).
  destruct (config_read_at_call_time D0 a0 store2 c0 secretsAllowed
              "maxQuerySize" VNull H1 H2 H3 H4)
    as (this & σ1 & σ2 & r & σ' & ps & Hnew & _ & Hset & Hrun & Hps & _).
  exists this, σ1, σ2, r, σ', ps.
  exact (conj Hnew (conj Hset (conj Hrun Hps))).
Defined.

Lemma newDefaultPolicyPack_default σ :
  newDefaultPolicyPack VUndefined σ
  = let c := fresh (dom σ) in
    let σ0 := <[c := plainObject ∅]> σ in
    Ok (fresh (dom σ0))
       (<[fresh (dom σ0) := plainObject (<["config" := VRef c]> ∅)]> σ0).
Proof.
  unfold newDefaultPolicyPack. simpl.
  erewrite run_bind; cycle 1.
  { erewrite run_bind by apply run_alloc. apply run_ret. }
  erewrite run_bind by apply run_alloc.
  erewrite run_bind by apply run_setProp_new. apply run_ret.
Qed.

(** X8.  A build only allocates: every object that existed is unchanged,
    the module constant and the shared default list among them, and the
    store gains exactly the pack, the result and its [policies] object,
    plus the default [{}] configuration when no argument is given.  What
    the builder relies on therefore still holds for the next build. *)
Theorem build_only_allocates D a σ overrides o :
  module_loaded D a σ → configOf σ overrides = Some o →
  ∃ r σ',
    buildDefaultPolicies D overrides σ = Ok r σ'
    ∧ σ ⊆ σ'
    ∧ σ !! r = None
    ∧ size σ' = (if isUndefined overrides then 4 else 3) + size σ
    ∧ module_loaded D a σ'
    ∧ (defaults_intact a σ → defaults_intact a σ').
Proof.
  intros Hload Hcfg.
  destruct (build_built D a σ overrides o Hload Hcfg) as (r & σ' & Hrun & HB).
  exists r, σ'. split; [done|].
  split; [by destruct HB|]. split; [by destruct HB|].
  split; [|split; [by destruct HB | by eapply Built_defaults_intact]].
  destruct Hload as [Hcl HD].
  unfold buildDefaultPolicies in Hrun.
  destruct overrides; simpl in Hcfg; try discriminate.
  - (* the default parameter *)
    injection Hcfg as <-.
    erewrite run_bind in Hrun by apply newDefaultPolicyPack_default.
    cbv zeta in Hrun.
    set (c := fresh (dom σ)) in *.
    set (σ0 := <[c := plainObject ∅]> σ) in *.
    set (t := fresh (dom σ0)) in *.
    assert (Hc : σ !! c = None) by apply fresh_lookup.
    assert (Ht : σ0 !! t = None) by apply fresh_lookup.
    assert (Hc0 : σ0 !! c = Some (plainObject ∅)) by apply lookup_insert_eq.
    assert (HD0 : σ0 !! D = Some (defaultsObject a)).
    { eapply lookup_weaken; [done|]. by apply insert_subseteq. }
    rewrite (getConfig_size D a (<[t := plainObject (<["config" := VRef c]> ∅)]> σ0)
               t (plainObject (<["config" := VRef c]> ∅)) c (plainObject ∅) r σ');
      try done.
    + rewrite map_size_insert_None by done. unfold σ0.
      rewrite map_size_insert_None by done. simpl. lia.
    + eapply lookup_weaken; [done|]. by apply insert_subseteq.
    + apply lookup_insert_eq.
    + eapply lookup_weaken; [done|]. by apply insert_subseteq.
  - (* an object is passed *)
    erewrite run_bind in Hrun by apply newDefaultPolicyPack_object.
    set (t := fresh (dom σ)) in *.
    assert (Ht : σ !! t = None) by apply fresh_lookup.
    assert (Hsub : σ ⊆ <[t := plainObject (<["config" := VRef l]> ∅)]> σ)
      by (by apply insert_subseteq).
    rewrite (getConfig_size D a (<[t := plainObject (<["config" := VRef l]> ∅)]> σ)
               t (plainObject (<["config" := VRef l]> ∅)) l o r σ'); try done.
    + rewrite map_size_insert_None by done. simpl. lia.
    + by eapply lookup_weaken.
    + apply lookup_insert_eq.
    + by eapply lookup_weaken.
    + eapply valid_mono; [done|]. by eapply closed_field.
Qed.

Lemma build_only_allocates_witness :
  module_loaded D0 a0 store1 ∧ configOf store1 (VRef c0) = Some exampleOverrides
  ∧ ∃ r σ',
      buildDefaultPolicies D0 (VRef c0) store1 = Ok r σ'
      ∧ store1 ⊆ σ'
      ∧ store1 !! r = None
      ∧ size σ' = 3 + size store1
      ∧ module_loaded D0 a0 σ'
      ∧ (defaults_intact a0 store1 → defaults_intact a0 σ').
Proof.
  assert (H1 : module_loaded D0 a0 store1) by by_evaluation.
  assert (H2 : configOf store1 (VRef c0) = Some exampleOverrides) by by_evaluation.
  exact (conj H1 (conj H2
           (build_only_allocates D0 a0 store1 (VRef c0) exampleOverrides H1 H2))).
Defined.

Lemma empty_config_tree D a σ r σ' n :
  Built D a σ (plainObject ∅) r σ' → defaults_intact a σ →
  snapshot (3 + n) σ' (VRef r)
  = TObject (<["policies" := TObject defaultPolicies]> ∅).
Proof.
  intros HB Hint. change (3 + n) with (S (S (S n))).
  rewrite (Built_snapshot D a σ _ r σ') by done.
  change (policiesFor a σ (plainObject ∅))
    with (<["block_secrets" := VBool true]>
          (<["block_pii" := VBool true]>
          (<["require_approval_for" := VRef a]>
          (<["max_query_size" := VNumber 1000]> (∅ : gmap string Val))))).
  rewrite !fmap_insert, fmap_empty.
  rewrite (snapshot_approvalDefault σ' a n) by (by eapply Built_defaults_intact).
  by rewrite !snapshot_bool, snapshot_number.
Qed.

(** X9.  From the module's evaluation to a result: in any closed store,
    evaluating the module binds [DEFAULT_POLICY_CONFIG] to its literal with
    a new array for [requireApprovalFor], and a pack built right after with
    no argument returns the defaults of the literal, [max_query_size: 1000],
    [require_approval_for: ["delete","update","export"]], [block_pii: true],
    [block_secrets: true]; the objects of the store before are unchanged. *)
Theorem defaults_from_module_evaluation σ n :
  closed σ →
  ∃ D σ0 r σ',
    loadModule σ = Ok D σ0
    ∧ σ !! D = None
    ∧ buildDefaultPolicies D VUndefined σ0 = Ok r σ'
    ∧ snapshot (3 + n) σ' (VRef r)
      = TObject (<["policies" := TObject defaultPolicies]> ∅)
    ∧ σ ⊆ σ'.
Proof.
  intros Hcl.
  destruct (loadModule_loaded σ Hcl) as (D & a & σ0 & Hrun0 & Hload & Hint & Hsub0).
  destruct (build_built D a σ0 VUndefined (plainObject ∅) Hload eq_refl)
    as (r & σ' & Hrun & HB).
  exists D, σ0, r, σ'. split; [done|]. split; [|split; [done|split]].
  - unfold loadModule in Hrun0.
    erewrite run_bind in Hrun0 by apply run_alloc.
    rewrite run_alloc in Hrun0. injection Hrun0 as <- _.
    eapply lookup_weaken_None; [apply fresh_lookup|]. apply insert_subseteq.
    apply fresh_lookup.
  - by eapply empty_config_tree.
  - etrans; [done|]. by destruct HB.
Qed.

Lemma defaults_from_module_evaluation_witness :
  closed (∅ : Store)
  ∧ ∃ D σ0 r σ',
      loadModule ∅ = Ok D σ0
      ∧ buildDefaultPolicies D VUndefined σ0 = Ok r σ'
      ∧ snapshot 3 σ' (VRef r)
        = TObject (<["policies" := TObject defaultPolicies]> ∅).
Proof.
  assert (H1 : closed (∅ : Store)) by apply map_Forall_empty.
  refine (conj H1 _).
  destruct (defaults_from_module_evaluation ∅ 0 H1)
    as (D & σ0 & r & σ' & Hload & _ & Hrun & Htree & _).
  exists D, σ0, r, σ'. exact (conj Hload (conj Hrun Htree)).
Defined.

End MoreOfTheBuilder.
